(** * xevent/eventloop.go: the X event loop of xgbutil

    A shallow embedding of [Read] and [processEventQueue] from
    [xevent/eventloop.go], with the queue and registry helpers they call,
    and the properties of the dispatch loop proved over it.

    Conventions.
    - Unsigned 32-bit protocol values (window identifiers, timestamps,
      atoms) are [N]; signed 16-bit coordinates are [Z].  The loop only
      copies and compares them, so no wrap-around arithmetic occurs.
    - The X connection is a finite script of answers to successive
      fetches; an answer with neither event nor error is the
      [nil, nil] of [PollForEvent].
    - Everything observable from outside the loop (a ping, a removal from
      the queue, a call of the error handler or of a callback) is
      recorded, in program order, in a trace.  Callbacks and the error
      handler are user code: the model records their invocation and
      lets them change nothing in [XUtil]. *)

From Stdlib Require Import List NArith ZArith Bool Arith Lia Permutation.
From Equations Require Import Equations.
Import ListNotations.

(** ** Protocol values (package [xproto]) *)

Module xproto.

Definition Window := N.
Definition Timestamp := N.
Definition Drawable := N.
Definition Atom := N.

(** The fields of [KeyPressEvent], [ButtonPressEvent],
    [MotionNotifyEvent] and [EnterNotifyEvent] the loop reads or
    writes; [KeyReleaseEvent], [ButtonReleaseEvent] and
    [LeaveNotifyEvent] are the same structs under another name. *)
Record InputEvent : Type := mkInput {
  Detail : N;
  Time   : Timestamp;
  Root   : Window;
  Event  : Window;
  Child  : Window;
  RootX  : Z;
  RootY  : Z;
  EventX : Z;
  EventY : Z;
  State  : N
}.

(** The decoded events, one constructor per Go type of the type switch;
    the arguments are the fields used for routing.  [OtherEvent] stands
    for any value of another type (an extension event, say). *)
Inductive XEvent : Type :=
| KeyPressEvent (e : InputEvent)
| KeyReleaseEvent (e : InputEvent)
| ButtonPressEvent (e : InputEvent)
| ButtonReleaseEvent (e : InputEvent)
| MotionNotifyEvent (e : InputEvent)
| EnterNotifyEvent (e : InputEvent)
| LeaveNotifyEvent (e : InputEvent)
| FocusInEvent (event : Window)
| FocusOutEvent (event : Window)
| KeymapNotifyEvent (keys : list N)
| ExposeEvent (window : Window)
| GraphicsExposureEvent (drawable : Drawable)
| NoExposureEvent (drawable : Drawable)
| VisibilityNotifyEvent (window : Window)
| CreateNotifyEvent (parent window : Window)
| DestroyNotifyEvent (event window : Window)
| UnmapNotifyEvent (event window : Window)
| MapNotifyEvent (event window : Window)
| MapRequestEvent (parent window : Window)
| ReparentNotifyEvent (event window parent : Window)
| ConfigureNotifyEvent (event window : Window)
| ConfigureRequestEvent (parent window : Window)
| GravityNotifyEvent (event window : Window)
| ResizeRequestEvent (window : Window)
| CirculateNotifyEvent (event window : Window)
| CirculateRequestEvent (event window : Window)
| PropertyNotifyEvent (window : Window) (atom : Atom) (time : Timestamp)
| SelectionClearEvent (time : Timestamp) (owner : Window) (selection : Atom)
| SelectionRequestEvent (time : Timestamp) (owner requestor : Window)
| SelectionNotifyEvent (time : Timestamp) (requestor : Window)
| ColormapNotifyEvent (window : Window)
| ClientMessageEvent (window : Window)
| MappingNotifyEvent (request firstKeycode count : N)
| OtherEvent (code : N).

(** [var laste xproto.MotionNotifyEvent]: the zero value of the struct. *)
Definition zeroInput : InputEvent :=
  mkInput 0%N 0%N 0%N 0%N 0%N 0%Z 0%Z 0%Z 0%Z 0%N.

(** [e.Event = wid] *)
Definition setEvent (wid : Window) (e : InputEvent) : InputEvent :=
  mkInput (Detail e) (Time e) (Root e) wid (Child e)
          (RootX e) (RootY e) (EventX e) (EventY e) (State e).

(** Lines 192-196: the five assignments from [laste] to [e]. *)
Definition overwrite (e laste : InputEvent) : InputEvent :=
  mkInput (Detail e) (Time laste) (Root e) (Event e) (Child e)
          (RootX laste) (RootY laste) (EventX laste) (EventY laste)
          (State e).

End xproto.

(** ** The state behind [xu *xgbutil.XUtil] *)

(** [xgb.Error]: only its identity matters to the loop. *)
Definition XError := N.

(** An entry of the queue, [xgbutil.EventOrError]: two nilable fields. *)
Record EventOrError : Type := mkEntry {
  Event : option xproto.XEvent;
  Err   : option XError
}.

(** The second argument of [runCallbacks]: the event-type constants of
    package xevent, one per supported event. *)
Inductive EventKind : Type :=
| KeyPress | KeyRelease | ButtonPress | ButtonRelease | MotionNotify
| EnterNotify | LeaveNotify | FocusIn | FocusOut | KeymapNotify
| Expose | GraphicsExposure | NoExposure | VisibilityNotify
| CreateNotify | DestroyNotify | UnmapNotify | MapNotify | MapRequest
| ReparentNotify | ConfigureNotify | ConfigureRequest | GravityNotify
| ResizeRequest | CirculateNotify | CirculateRequest | PropertyNotify
| SelectionClear | SelectionRequest | SelectionNotify | ColormapNotify
| ClientMessage | MappingNotify.

(** A registered callback, by identity. *)
Definition Callback := nat.

Record XUtil : Type := mkXUtil {
  (** the connection: the answers its next fetches will give *)
  Conn        : list EventOrError;
  (** the event queue *)
  Evqueue     : list EventOrError;
  (** the shutdown flag *)
  Quit        : bool;
  (** the key-redirection target, 0 when there is none *)
  KeyRedirect : xproto.Window;
  (** the last-seen timestamp *)
  LastTime    : xproto.Timestamp;
  (** the callback registry *)
  Callbacks   : EventKind -> xproto.Window -> list Callback
}.

Definition setConn (c : list EventOrError) (xu : XUtil) : XUtil :=
  mkXUtil c (Evqueue xu) (Quit xu) (KeyRedirect xu) (LastTime xu) (Callbacks xu).

Definition setEvqueue (q : list EventOrError) (xu : XUtil) : XUtil :=
  mkXUtil (Conn xu) q (Quit xu) (KeyRedirect xu) (LastTime xu) (Callbacks xu).

Definition setLastTime (t : xproto.Timestamp) (xu : XUtil) : XUtil :=
  mkXUtil (Conn xu) (Evqueue xu) (Quit xu) (KeyRedirect xu) t (Callbacks xu).

(** ** Observations, results and the monad of the loop *)

Inductive Obs : Type :=
| OPing                                            (* ping <- struct{}{} *)
| ODequeue (ee : EventOrError)                     (* Dequeue took [ee] *)
| ODequeueAt (i : nat) (ee : EventOrError)         (* DequeueAt(i) took [ee] *)
| OSync                                            (* xu.Sync() *)
| OErrorHandler (err : XError)                     (* ErrorHandlerGet(xu)(err) *)
| ORunCallbacks (k : EventKind) (w : xproto.Window) (ev : xproto.XEvent)
                                                   (* runCallbacks(xu, ev, k, w) *)
| OCallback (cb : Callback) (ev : xproto.XEvent)   (* one callback run on [ev] *)
| OUnsupported (ev : xproto.XEvent).               (* the log line of [default:] *)

Definition Trace := list Obs.

(** How a call ends other than by returning. *)
Inductive Crash : Type :=
| FatalNoEntry       (* "BUG: Could not read an event or an error." *)
| FatalNilEvent      (* "BUG: Expected an event but got nil." *)
| EmptyDequeue.      (* Dequeue on an empty queue *)

Inductive Res (A : Type) : Type :=
| Ok (a : A) (xu : XUtil) (tr : Trace)
| Crashed (c : Crash) (xu : XUtil) (tr : Trace)
| OutOfFuel.

Arguments Ok {A} a xu tr.
Arguments Crashed {A} c xu tr.
Arguments OutOfFuel {A}.

Definition M (A : Type) : Type := XUtil -> Res A.

(** [prepend t r]: the observations [t] happened before those of [r]. *)
Definition prepend {A} (t : Trace) (r : Res A) : Res A :=
  match r with
  | Ok a xu tr => Ok a xu (t ++ tr)
  | Crashed c xu tr => Crashed c xu (t ++ tr)
  | OutOfFuel => OutOfFuel
  end.

Definition ret {A} (a : A) : M A := fun xu => Ok a xu [].

Definition bind {A B} (m : M A) (k : A -> M B) : M B :=
  fun xu =>
    match m xu with
    | Ok a xu1 t1 => prepend t1 (k a xu1)
    | Crashed c xu1 t1 => Crashed c xu1 t1
    | OutOfFuel => OutOfFuel
    end.

Notation "x <- m ;; k" := (bind m (fun x => k))
  (at level 61, m at next level, right associativity).
Notation "m ;; k" := (bind m (fun _ => k))
  (at level 61, right associativity).

Definition emit (o : Obs) : M unit := fun xu => Ok tt xu [o].
Definition crash {A} (c : Crash) : M A := fun xu => Crashed c xu [].
Definition out_of_fuel {A} : M A := fun _ => OutOfFuel.

(** ** The queue, the connection and the registry

    These helpers of package xevent and methods of [XUtil] are called by
    [eventloop.go] and declared in other files of the repository. *)

(** Modelled from the spec: [Enqueue], "appends to the tail; always
    succeeds; queue length +1". *)
Definition Enqueue (ev : option xproto.XEvent) (err : option XError) : M unit :=
  fun xu => Ok tt (setEvqueue (Evqueue xu ++ [mkEntry ev err]) xu) [].

(** Modelled from the spec: [Empty], "true iff length is zero". *)
Definition Empty (xu : XUtil) : bool :=
  match Evqueue xu with [] => true | _ :: _ => false end.

(** Modelled from the spec: [Dequeue], "removes and returns the head
    entry; fails if called on an empty queue". *)
Definition Dequeue : M EventOrError :=
  fun xu =>
    match Evqueue xu with
    | [] => Crashed EmptyDequeue xu []
    | ee :: rest => Ok ee (setEvqueue rest xu) [ODequeue ee]
    end.

(** Modelled from the spec: [Peek], "returns a read-only ordered view of
    current entries without removing them". *)
Definition Peek : M (list EventOrError) :=
  fun xu => Ok (Evqueue xu) xu [].

(** Modelled from the spec: [DequeueAt], "removes and discards the entry
    at the given position".  The loop only passes positions it has just
    found in [Peek]; a position past the end removes nothing here. *)
Definition DequeueAt (i : nat) : M unit :=
  fun xu =>
    Ok tt (setEvqueue (firstn i (Evqueue xu) ++ skipn (S i) (Evqueue xu)) xu)
       match nth_error (Evqueue xu) i with
       | Some ee => [ODequeueAt i ee]
       | None => []
       end.

(** Modelled from the spec: [Quitting], the shutdown state
    "isShuttingDown() -> bool". *)
Definition Quitting (xu : XUtil) : bool := Quit xu.

(** Modelled from the spec: [RedirectKeyGet],
    "currentKeyRedirectTarget() -> identifier-or-none", none being 0. *)
Definition RedirectKeyGet (xu : XUtil) : xproto.Window := KeyRedirect xu.

(** Modelled from the spec: [ErrorHandlerGet(xu)(err)], the single
    external error handler called on [err]. *)
Definition ErrorHandler (err : XError) : M unit := emit (OErrorHandler err).

(** Modelled from the spec: [xu.TimeSet], "setLastTime(timestamp)". *)
Definition TimeSet (t : xproto.Timestamp) : M unit :=
  fun xu => Ok tt (setLastTime t xu) [].

(** Modelled from the spec: [xu.Sync], "sync() (flush/round-trip)".  What
    the round trip makes available is what the script of [Conn] says. *)
Definition Sync : M unit := emit OSync.

(** Modelled from the spec: [runCallbacks], "look up and invoke, in
    registration order, every callback bound to (EventKind,
    TargetIdentifier)". *)
Definition runCallbacks (ev : xproto.XEvent) (k : EventKind)
    (w : xproto.Window) : M unit :=
  fun xu =>
    Ok tt xu (ORunCallbacks k w ev
                :: map (fun cb => OCallback cb ev) (Callbacks xu k w)).

(** [ev == nil && err == nil] *)
Definition isNil (r : EventOrError) : bool :=
  match Event r, Err r with
  | None, None => true
  | _, _ => false
  end.

(** Modelled from the spec: [PollForEvent], "non-blocking, nil/nil = none
    available".  An exhausted script has nothing available. *)
Definition PollForEvent : M EventOrError :=
  fun xu =>
    match Conn xu with
    | [] => Ok (mkEntry None None) xu []
    | r :: rest => Ok r (setConn rest xu) []
    end.

(** The blocking fetch waits through the moments at which nothing is
    available; on an exhausted script (a closed connection) it gives
    [nil, nil]. *)
Fixpoint waitFor (pending : list EventOrError)
    : EventOrError * list EventOrError :=
  match pending with
  | [] => (mkEntry None None, [])
  | r :: rest => if isNil r then waitFor rest else (r, rest)
  end.

(** Modelled from the spec: [WaitForEvent], "waitForEntry() -> (event?,
    error?) (blocking)". *)
Definition WaitForEvent : M EventOrError :=
  fun xu =>
    let (r, rest) := waitFor (Conn xu) in Ok r (setConn rest xu) [].

(** ** [Read] (lines 22-43) *)

(** Lines 32-42, the loop [for { ev, err := PollForEvent() ... }], by
    recursion on the answers the connection still has to give. *)
Fixpoint pollLoop (pending : list EventOrError) (xu : XUtil) : XUtil :=
  match pending with
  | [] => setConn [] xu
  | r :: rest =>
      if isNil r then setConn rest xu
      else pollLoop rest
             (setEvqueue (Evqueue xu ++ [mkEntry (Event r) (Err r)]) xu)
  end.

Definition Read (block : bool) : M unit :=
  (if block then
     r <- WaitForEvent ;;
     if isNil r then crash FatalNoEntry
     else Enqueue (Event r) (Err r)
   else ret tt) ;;
  (fun xu => Ok tt (pollLoop (Conn xu) xu) []).

(** ** [processEventQueue] (lines 98-301) *)

(** Lines 173-185: the scan of [Peek(xu)] for the first motion notify of
    window [w] that is not an error entry; [i] is the index of the head
    of [q]. *)
Fixpoint scan (w : xproto.Window) (q : list EventOrError) (i : nat)
    : option (nat * xproto.InputEvent) :=
  match q with
  | [] => None
  | ee :: rest =>
      match Err ee with
      | Some _ => scan w rest (S i)
      | None =>
          match Event ee with
          | Some (xproto.MotionNotifyEvent mn) =>
              if (xproto.Event mn =? w)%N then Some (i, mn)
              else scan w rest (S i)
          | _ => scan w rest (S i)
          end
      end
  end.

(** Lines 168-189: the compression loop.  [laste] is the variable of the
    same name; the result is its value when the loop breaks. *)
Fixpoint coalesce (fuel : nat) (w : xproto.Window)
    (laste : xproto.InputEvent) : M xproto.InputEvent :=
  match fuel with
  | O => out_of_fuel
  | S f =>
      Sync ;;
      Read false ;;
      q <- Peek ;;
      match scan w q 0 with
      | Some (i, mn) => DequeueAt i ;; coalesce f w mn
      | None => ret laste
      end
  end.

Section Loop.

(** The sentinel window of package xevent, declared outside this file. *)
Variable NoWindow : xproto.Window.

(** Lines 125-299: the type switch on the dequeued event. *)
Definition dispatch (fuel : nat) (ev : xproto.XEvent) : M unit :=
  match ev with
  | xproto.KeyPressEvent e =>
      wid <- (fun xu => Ok (RedirectKeyGet xu) xu []) ;;
      let e := if (0 <? wid)%N then xproto.setEvent wid e else e in
      TimeSet (xproto.Time e) ;;
      runCallbacks (xproto.KeyPressEvent e) KeyPress (xproto.Event e)
  | xproto.KeyReleaseEvent e =>
      wid <- (fun xu => Ok (RedirectKeyGet xu) xu []) ;;
      let e := if (0 <? wid)%N then xproto.setEvent wid e else e in
      TimeSet (xproto.Time e) ;;
      runCallbacks (xproto.KeyReleaseEvent e) KeyRelease (xproto.Event e)
  | xproto.ButtonPressEvent e =>
      TimeSet (xproto.Time e) ;;
      runCallbacks ev ButtonPress (xproto.Event e)
  | xproto.ButtonReleaseEvent e =>
      TimeSet (xproto.Time e) ;;
      runCallbacks ev ButtonRelease (xproto.Event e)
  | xproto.MotionNotifyEvent e =>
      laste <- coalesce fuel (xproto.Event e) xproto.zeroInput ;;
      let e := if negb (xproto.Root laste =? 0)%N
               then xproto.overwrite e laste else e in
      TimeSet (xproto.Time e) ;;
      runCallbacks (xproto.MotionNotifyEvent e) MotionNotify (xproto.Event e)
  | xproto.EnterNotifyEvent e =>
      TimeSet (xproto.Time e) ;;
      runCallbacks ev EnterNotify (xproto.Event e)
  | xproto.LeaveNotifyEvent e =>
      TimeSet (xproto.Time e) ;;
      runCallbacks ev LeaveNotify (xproto.Event e)
  | xproto.FocusInEvent event => runCallbacks ev FocusIn event
  | xproto.FocusOutEvent event => runCallbacks ev FocusOut event
  | xproto.KeymapNotifyEvent _ => runCallbacks ev KeymapNotify NoWindow
  | xproto.ExposeEvent window => runCallbacks ev Expose window
  | xproto.GraphicsExposureEvent drawable =>
      runCallbacks ev GraphicsExposure drawable
  | xproto.NoExposureEvent drawable => runCallbacks ev NoExposure drawable
  | xproto.VisibilityNotifyEvent window =>
      runCallbacks ev VisibilityNotify window
  | xproto.CreateNotifyEvent _ window => runCallbacks ev CreateNotify window
  | xproto.DestroyNotifyEvent _ window => runCallbacks ev DestroyNotify window
  | xproto.UnmapNotifyEvent _ window => runCallbacks ev UnmapNotify window
  | xproto.MapNotifyEvent _ window => runCallbacks ev MapNotify window
  | xproto.MapRequestEvent parent window =>
      runCallbacks ev MapRequest window ;;
      runCallbacks ev MapRequest parent
  | xproto.ReparentNotifyEvent _ window _ =>
      runCallbacks ev ReparentNotify window
  | xproto.ConfigureNotifyEvent _ window =>
      runCallbacks ev ConfigureNotify window
  | xproto.ConfigureRequestEvent parent window =>
      runCallbacks ev ConfigureRequest window ;;
      runCallbacks ev ConfigureRequest parent
  | xproto.GravityNotifyEvent _ window => runCallbacks ev GravityNotify window
  | xproto.ResizeRequestEvent window => runCallbacks ev ResizeRequest window
  | xproto.CirculateNotifyEvent _ window =>
      runCallbacks ev CirculateNotify window
  | xproto.CirculateRequestEvent _ window =>
      runCallbacks ev CirculateRequest window
  | xproto.PropertyNotifyEvent window _ time =>
      TimeSet time ;; runCallbacks ev PropertyNotify window
  | xproto.SelectionClearEvent time owner _ =>
      TimeSet time ;; runCallbacks ev SelectionClear owner
  | xproto.SelectionRequestEvent time _ requestor =>
      TimeSet time ;; runCallbacks ev SelectionRequest requestor
  | xproto.SelectionNotifyEvent time requestor =>
      TimeSet time ;; runCallbacks ev SelectionNotify requestor
  | xproto.ColormapNotifyEvent window => runCallbacks ev ColormapNotify window
  | xproto.ClientMessageEvent window => runCallbacks ev ClientMessage window
  | xproto.MappingNotifyEvent _ _ _ => runCallbacks ev MappingNotify NoWindow
  | xproto.OtherEvent _ => emit (OUnsupported ev)
  end.

(** Lines 98-301.  [ping] tells whether a ping channel was passed
    ([ping != nil]).  [fuel] bounds the number of iterations, of this
    loop and of the compression loop inside it. *)
Fixpoint processEventQueue_fuel (fuel : nat) (ping : bool) : M unit :=
  match fuel with
  | O => out_of_fuel
  | S f =>
      fun xu =>
        if Empty xu then Ok tt xu []
        else if Quitting xu then Ok tt xu []
        else
          ((if ping then emit OPing else ret tt) ;;
           ee <- Dequeue ;;
           match Err ee with
           | Some err =>
               ErrorHandler err ;;
               processEventQueue_fuel f ping
           | None =>
               match Event ee with
               | None => crash FatalNilEvent
               | Some event =>
                   dispatch f event ;;
                   processEventQueue_fuel f ping
               end
           end) xu
  end.

(** The number of entries in the queue or still to come from the
    connection: neither loop runs more iterations than that, plus one. *)
Definition pendingWork (xu : XUtil) : nat :=
  length (Evqueue xu) + length (Conn xu).

Definition processEventQueue (ping : bool) : M unit :=
  fun xu => processEventQueue_fuel (S (pendingWork xu)) ping xu.

End Loop.

(** ** What a trace shows *)

Definition isPing (o : Obs) : bool :=
  match o with OPing => true | _ => false end.

Definition isDequeue (o : Obs) : bool :=
  match o with ODequeue _ => true | _ => false end.

(** Any removal from the queue, from the head or from the middle. *)
Definition isRemoval (o : Obs) : bool :=
  match o with ODequeue _ | ODequeueAt _ _ => true | _ => false end.

(** A run of user code: the error handler, or a [runCallbacks] with the
    callbacks it runs. *)
Definition isCall (o : Obs) : bool :=
  match o with
  | OErrorHandler _ | ORunCallbacks _ _ _ | OCallback _ _ => true
  | _ => false
  end.

(** The entries taken out of the middle of the queue, in order. *)
Fixpoint replacements (tr : Trace) : list EventOrError :=
  match tr with
  | [] => []
  | ODequeueAt _ ee :: tr' => ee :: replacements tr'
  | _ :: tr' => replacements tr'
  end.

(** The [runCallbacks] calls, in order. *)
Fixpoint dispatches (tr : Trace)
    : list (EventKind * xproto.Window * xproto.XEvent) :=
  match tr with
  | [] => []
  | ORunCallbacks k w ev :: tr' => (k, w, ev) :: dispatches tr'
  | _ :: tr' => dispatches tr'
  end.

(** The trace of a call that came to an end. *)
Definition traceOf {A} (r : Res A) : option Trace :=
  match r with
  | Ok _ _ tr | Crashed _ _ tr => Some tr
  | OutOfFuel => None
  end.

Definition callsOf {A} (r : Res A) : Trace :=
  match traceOf r with
  | Some tr => filter isCall tr
  | None => []
  end.

(** The entry is a motion notify of window [w] and carries no error: the
    test of lines 174-178. *)
Definition isMotionFor (w : xproto.Window) (ee : EventOrError) : bool :=
  match Err ee, Event ee with
  | None, Some (xproto.MotionNotifyEvent mn) => (xproto.Event mn =? w)%N
  | _, _ => false
  end.

Definition motionOf (ee : EventOrError) : option xproto.InputEvent :=
  match Err ee, Event ee with
  | None, Some (xproto.MotionNotifyEvent mn) => Some mn
  | _, _ => None
  end.

Definition motionEntry (mn : xproto.InputEvent) : EventOrError :=
  mkEntry (Some (xproto.MotionNotifyEvent mn)) None.

(** The value of [laste] after the entries [l] were found in turn,
    starting from [d]. *)
Fixpoint lastMotion (l : list EventOrError) (d : xproto.InputEvent)
    : xproto.InputEvent :=
  match l with
  | [] => d
  | ee :: l' =>
      lastMotion l' (match motionOf ee with Some mn => mn | None => d end)
  end.

(** What one run of the loop of [Read] takes from the connection, and
    what it leaves there. *)
Fixpoint polled (pending : list EventOrError) : list EventOrError :=
  match pending with
  | [] => []
  | r :: rest => if isNil r then [] else r :: polled rest
  end.

Fixpoint unpolled (pending : list EventOrError) : list EventOrError :=
  match pending with
  | [] => []
  | r :: rest => if isNil r then rest else unpolled rest
  end.

(** The first non-blocking fetch finds nothing. *)
Definition nothingPending (xu : XUtil) : Prop :=
  match PollForEvent xu with
  | Ok r _ _ => isNil r = true
  | _ => False
  end.


Definition notMotionFor (w : xproto.Window) (ee : EventOrError) : bool :=
  negb (isMotionFor w ee).

(** What the compression loop may show: round trips and removals from
    the middle of the queue. *)
Definition isCoalesceObs (o : Obs) : bool :=
  match o with OSync | ODequeueAt _ _ => true | _ => false end.

(** What the loop shows before it dequeues: the ping, when there is a
    ping channel. *)
Definition pingObs (ping : bool) : Trace := if ping then [OPing] else [].

(** The trace of [runCallbacks(xu, ev, k, w)]. *)
Definition callbackObs (xu : XUtil) (ev : xproto.XEvent) (k : EventKind)
    (w : xproto.Window) : Trace :=
  ORunCallbacks k w ev :: map (fun cb => OCallback cb ev) (Callbacks xu k w).

(** Neither a ping nor a removal from the head of the queue. *)
Definition isQuiet (o : Obs) : bool := negb (isPing o || isDequeue o).

Definition isMotionEv (ev : xproto.XEvent) : bool :=
  match ev with xproto.MotionNotifyEvent _ => true | _ => false end.

(** The state in which an event is dispatched on its own: nothing else
    in the queue, nothing to come from the connection. *)
Definition alone (xu : XUtil) : XUtil :=
  mkXUtil [] [] false (KeyRedirect xu) 0%N (Callbacks xu).

(** What the type switch shows for [ev] dispatched on its own. *)
Definition dispatchObs (NoWindow : xproto.Window) (xu : XUtil)
    (ev : xproto.XEvent) : Trace :=
  match traceOf (dispatch NoWindow 1 ev (alone xu)) with
  | Some tr => tr
  | None => []
  end.

(** What one iteration of the loop shows for the entry [ee]: the ping,
    the removal of [ee] from the head, then what handling it shows. *)
Definition iteration (ping : bool) (ee : EventOrError) (handling : Trace)
    : Trace :=
  pingObs ping ++ ODequeue ee :: handling.

(** An event of a type the switch has a case for. *)
Definition isSupported (ev : xproto.XEvent) : bool :=
  match ev with xproto.OtherEvent _ => false | _ => true end.

(** A map request or a configure request. *)
Definition isRequest (ev : xproto.XEvent) : bool :=
  match ev with
  | xproto.MapRequestEvent _ _ | xproto.ConfigureRequestEvent _ _ => true
  | _ => false
  end.

(** The drain [whole] shows [shown] first and then goes on as the drain
    [next] does, to the same end: both return, or both stop at the fatal
    log call for an empty entry, in the same state, and the trace of
    [whole] is [shown] followed by the trace of [next]. *)
Definition showsThenGoesOn (whole : Res unit) (shown : Trace)
    (next : Res unit) : Prop :=
  exists xu' tr',
    (next = Ok tt xu' tr' /\ whole = Ok tt xu' (shown ++ tr')) \/
    (next = Crashed FatalNilEvent xu' tr' /\
     whole = Crashed FatalNilEvent xu' (shown ++ tr')).

(** ** Concrete states, for examples *)

Definition sampleInput (w root t : N) (x y : Z) : xproto.InputEvent :=
  xproto.mkInput 0%N t root w 0%N x y x y 0%N.

Definition sampleMotion (w root t : N) (x y : Z) : EventOrError :=
  motionEntry (sampleInput w root t x y).

Definition sampleCallbacks (k : EventKind) (w : xproto.Window)
    : list Callback :=
  match k with
  | MotionNotify => if (w =? 7)%N then [1; 2] else []
  | KeyPress => if (w =? 9)%N then [3] else [5]
  | _ => [4]
  end.

Definition sampleXUtil (conn queue : list EventOrError)
    (redirect : xproto.Window) (quit : bool) : XUtil :=
  mkXUtil conn queue quit redirect 0%N sampleCallbacks.

Definition sampleKey : xproto.InputEvent := sampleInput 4 1 10 2 3.

Definition sampleKeyState : XUtil :=
  sampleXUtil [] [mkEntry (Some (xproto.KeyPressEvent sampleKey)) None]
    9%N false.

(** ** The ping protocol *)

(** A trace made of blocks, each a ping, then the removal of an entry
    from the head of the queue, then the handling of that entry, in which
    there is neither a ping nor a removal from the head. *)
Inductive pingBlocks : Trace -> Prop :=
| pingBlocks_nil : pingBlocks []
| pingBlocks_cons (ee : EventOrError) (handling rest : Trace) :
    forallb isQuiet handling = true ->
    pingBlocks rest ->
    pingBlocks (OPing :: ODequeue ee :: handling ++ rest).

(** The reading of "one signal per entry removed from the queue" that
    counts every removal, from the head or from the middle. *)
Definition onePingPerRemoval (NoWindow : xproto.Window) (xu : XUtil) : Prop :=
  forall tr,
    traceOf (processEventQueue NoWindow true xu) = Some tr ->
    length (filter isPing tr) = length (filter isRemoval tr).

(** ** Motion compression *)

(** The last entry of a list, as a motion notify. *)
Definition lastOf (l : list EventOrError) : option xproto.InputEvent :=
  match rev l with
  | ee :: _ => motionOf ee
  | [] => None
  end.

(** The last replacement the compression loop found, if it found one. *)
Definition lastReplacement (tr : Trace) : option xproto.InputEvent :=
  lastOf (replacements tr).

(** The reading of the spec: whenever a replacement was found, [e] is
    dispatched with the time and position of the last one. *)
Definition motionOverwrittenByLast (NoWindow : xproto.Window) (f : nat)
    (xu : XUtil) (e : xproto.InputEvent) : Prop :=
  forall xu1 handling mn,
    dispatch NoWindow f (xproto.MotionNotifyEvent e) xu = Ok tt xu1 handling ->
    lastReplacement handling = Some mn ->
    dispatches handling =
      [(MotionNotify, xproto.Event e,
        xproto.MotionNotifyEvent (xproto.overwrite e mn))].

(** ** The order of dispatch *)

(** Collapsing, as the loop does it: the entry takes the time and
    position of the last of the [later] motion notifies of its window,
    when there is one and its root window is not 0. *)
Definition carry (e : xproto.InputEvent) (later : list EventOrError)
    : xproto.InputEvent :=
  match lastOf later with
  | Some mn => if (xproto.Root mn =? 0)%N then e else xproto.overwrite e mn
  | None => e
  end.

(** The queue with the motion notifies that share a window collapsed into
    one entry each, at the place of the first of them; every other entry
    stays where it is. *)
Equations? collapse (q : list EventOrError) : list EventOrError
    by wf (length q) lt :=
  collapse [] := [];
  collapse (ee :: rest) with motionOf ee := {
    | Some e =>
        motionEntry (carry e (filter (isMotionFor (xproto.Event e)) rest))
          :: collapse (filter (notMotionFor (xproto.Event e)) rest);
    | None => ee :: collapse rest }.
Proof.
  all: simpl;
    try match goal with
        | |- context [filter ?p ?l] => pose proof (filter_length_le p l)
        end;
    lia.
Qed.

(** What the drain of the single entry [ee] invokes. *)
Definition aloneCalls (NoWindow : xproto.Window) (ping : bool) (xu : XUtil)
    (ee : EventOrError) : Trace :=
  callsOf (processEventQueue NoWindow ping (setEvqueue [ee] xu)).

(** The entry holds an event or an error. *)
Definition holdsSomething (ee : EventOrError) : Prop := isNil ee = false.

(** The reading of the spec's scenario: three motion notifies of one
    window, nothing else, are dispatched once, with the time and
    position of the third. *)
Definition threeMotionsYieldLast (NoWindow : xproto.Window) (xu : XUtil)
    (m1 m2 m3 : xproto.InputEvent) : Prop :=
  Evqueue xu = [motionEntry m1; motionEntry m2; motionEntry m3] ->
  xproto.Event m2 = xproto.Event m1 ->
  xproto.Event m3 = xproto.Event m1 ->
  callsOf (processEventQueue NoWindow false xu) =
    callbackObs xu (xproto.MotionNotifyEvent (xproto.overwrite m1 m3))
      MotionNotify (xproto.Event m1).

(** The reading of "motion-notify entries sharing a target identifier
    collapse to a single dispatch": no window is dispatched a motion
    notify twice in one drain. *)
Definition oneMotionDispatchPerWindow (NoWindow : xproto.Window)
    (xu : XUtil) : Prop :=
  forall tr,
    traceOf (processEventQueue NoWindow false xu) = Some tr ->
    NoDup (map (fun d => snd (fst d))
             (filter (fun d => match fst (fst d) with
                               | MotionNotify => true
                               | _ => false
                               end)
                (dispatches tr))).

Definition sampleBurst : XUtil :=
  sampleXUtil [mkEntry None None; sampleMotion 7 1 13 4 4]
    [sampleMotion 7 1 10 1 1; mkEntry None (Some 3%N);
     sampleMotion 8 1 11 2 2; sampleMotion 7 1 12 3 3]
    0%N false.

(** What handling the entry [ee] on its own invokes, from the registry
    and the redirection target of [xu]. *)
Definition entryCalls (NoWindow : xproto.Window) (xu : XUtil)
    (ee : EventOrError) : Trace :=
  match Err ee with
  | Some err => [OErrorHandler err]
  | None =>
      match Event ee with
      | Some ev => filter isCall (dispatchObs NoWindow xu ev)
      | None => []
      end
  end.

Definition sampleThree : XUtil :=
  sampleXUtil []
    [sampleMotion 7 1 10 1 1; sampleMotion 7 1 11 2 2;
     sampleMotion 7 1 12 3 3]
    0%N false.

(** ** The main loop (lines 50-95) *)

Section MainLoop.

Variable NoWindow : xproto.Window.

(** Lines 82-95, [mainEventLoop].  [fuel] bounds the number of cycles;
    each cycle takes at least one answer from the connection. *)
Fixpoint mainEventLoop_fuel (fuel : nat) (ping : bool) : M unit :=
  match fuel with
  | O => out_of_fuel
  | S f =>
      fun xu =>
        if Quitting xu then Ok tt xu []
        else
          (Read true ;;
           processEventQueue NoWindow ping ;;
           mainEventLoop_fuel f ping) xu
  end.

Definition mainEventLoop (ping : bool) : M unit :=
  fun xu => mainEventLoop_fuel (S (length (Conn xu))) ping xu.

(** Lines 50-52, [Main]: the loop without a ping channel. *)
Definition Main : M unit := mainEventLoop false.

(** Lines 73-79, [MainPing]: what the goroutine it starts runs, the loop
    with the ping channel it returns. *)
Definition MainPing : M unit := mainEventLoop true.

End MainLoop.

(** ** More of what a trace shows *)

Definition isSync (o : Obs) : bool :=
  match o with OSync => true | _ => false end.

(** The entries taken from the head of the queue, in order. *)
Fixpoint dequeued (tr : Trace) : list EventOrError :=
  match tr with
  | [] => []
  | ODequeue ee :: tr' => ee :: dequeued tr'
  | _ :: tr' => dequeued tr'
  end.

(** The entries taken from the queue, from the head or from the middle,
    in order. *)
Fixpoint removed (tr : Trace) : list EventOrError :=
  match tr with
  | [] => []
  | ODequeue ee :: tr' => ee :: removed tr'
  | ODequeueAt _ ee :: tr' => ee :: removed tr'
  | _ :: tr' => removed tr'
  end.

(** [l1] is [l2] with some elements left out, the others in the same
    order. *)
Inductive Subseq {A : Type} : list A -> list A -> Prop :=
| Subseq_nil : Subseq [] []
| Subseq_skip (x : A) (l1 l2 : list A) : Subseq l1 l2 -> Subseq l1 (x :: l2)
| Subseq_keep (x : A) (l1 l2 : list A) :
    Subseq l1 l2 -> Subseq (x :: l1) (x :: l2).

(** The answers of the connection that are entries. *)
Definition arrivals (consumed : list EventOrError) : list EventOrError :=
  filter (fun r => negb (isNil r)) consumed.
(** ** [Read] *)

Lemma entry_eta (r : EventOrError) : mkEntry (Event r) (Err r) = r.
Proof. destruct r; reflexivity. Qed.

Lemma pollLoop_eq (pending : list EventOrError) :
  forall xu,
    pollLoop pending xu =
    setConn (unpolled pending) (setEvqueue (Evqueue xu ++ polled pending) xu).
Proof.
  induction pending as [|r rest IH]; intros xu; simpl.
  - rewrite app_nil_r. destruct xu; reflexivity.
  - destruct (isNil r).
    + rewrite app_nil_r. destruct xu; reflexivity.
    + rewrite IH, entry_eta. unfold setConn, setEvqueue; simpl.
      rewrite <- app_assoc. reflexivity.
Qed.

(** The recursion on the script is the loop on [PollForEvent]: fetch,
    stop on [nil, nil], otherwise enqueue and go round again. *)
Lemma pollLoop_PollForEvent (xu : XUtil) :
  pollLoop (Conn xu) xu =
  match PollForEvent xu with
  | Ok r xu1 _ =>
      if isNil r then xu1
      else match Enqueue (Event r) (Err r) xu1 with
           | Ok _ xu2 _ => pollLoop (Conn xu2) xu2
           | _ => xu1
           end
  | _ => xu
  end.
Proof.
  destruct xu as [c q qt kr lt cbs]. destruct c as [|r rest]; [reflexivity|].
  unfold PollForEvent, Enqueue. cbn.
  destruct (isNil r); [reflexivity|].
  rewrite !pollLoop_eq. reflexivity.
Qed.

Lemma Read_false (xu : XUtil) :
  Read false xu =
  Ok tt (setConn (unpolled (Conn xu))
           (setEvqueue (Evqueue xu ++ polled (Conn xu)) xu)) [].
Proof.
  unfold Read, bind, ret; simpl. rewrite pollLoop_eq. reflexivity.
Qed.

Lemma polled_unpolled_length (c : list EventOrError) :
  length (polled c) + length (unpolled c) <= length c.
Proof.
  induction c as [|r rest IH]; simpl; [lia|].
  destruct (isNil r); simpl; lia.
Qed.

(** The part of the script one [Read] goes through: the entries it
    queues and, when there is one, the empty answer that stops it. *)
Lemma polled_consumed (c : list EventOrError) :
  exists consumed,
    c = consumed ++ unpolled c /\
    filter (fun r => negb (isNil r)) consumed = polled c.
Proof.
  induction c as [|r rest (consumed & Hc & Hf)]; simpl.
  - exists []; split; reflexivity.
  - destruct (isNil r) eqn:Hr.
    + exists [r]; simpl; rewrite Hr; split; reflexivity.
    + exists (r :: consumed); simpl; rewrite Hr; simpl.
      split; congruence.
Qed.

(** C8.  [Read] with [block = false], called when the first
    non-blocking fetch yields neither event nor error, returns normally
    (no fatal exit) and leaves the queue, and all of [XUtil] but the
    connection, as it was. *)
Theorem Read_false_nothing_pending (xu : XUtil) :
  nothingPending xu ->
  exists xu',
    Read false xu = Ok tt xu' [] /\
    Evqueue xu' = Evqueue xu /\
    xu' = setConn (tl (Conn xu)) xu.
Proof.
  unfold nothingPending, PollForEvent. intros H.
  rewrite Read_false.
  destruct xu as [c q qt kr lt cbs]; simpl in *.
  destruct c as [|r rest]; simpl in *.
  - eexists; split; [reflexivity|]. rewrite app_nil_r. split; reflexivity.
  - rewrite H. eexists; split; [reflexivity|].
    rewrite app_nil_r. split; reflexivity.
Qed.

(** ** The scan and the compression loop *)

Lemma isMotionFor_inv (w : xproto.Window) (ee : EventOrError) :
  isMotionFor w ee = true ->
  exists mn, ee = motionEntry mn /\ xproto.Event mn = w /\
             motionOf ee = Some mn.
Proof.
  destruct ee as [[ev|] [er|]]; simpl; try discriminate.
  destruct ev; simpl; try discriminate.
  intros H. apply N.eqb_eq in H. exists e. repeat split; assumption.
Qed.

Lemma scan_cons (w : xproto.Window) (ee : EventOrError)
    (rest : list EventOrError) (i : nat) :
  scan w (ee :: rest) i =
  if isMotionFor w ee
  then match motionOf ee with Some mn => Some (i, mn) | None => None end
  else scan w rest (S i).
Proof.
  destruct ee as [[ev|] [er|]]; simpl; try reflexivity.
  destruct ev; simpl; try reflexivity;
    destruct (xproto.Event e =? w)%N; reflexivity.
Qed.

Lemma scan_Some (w : xproto.Window) (q : list EventOrError) :
  forall i j mn,
    scan w q i = Some (j, mn) ->
    exists pre post,
      q = pre ++ motionEntry mn :: post /\
      j = i + length pre /\
      filter (isMotionFor w) pre = [] /\
      xproto.Event mn = w.
Proof.
  induction q as [|ee rest IH]; intros i j mn H; [discriminate|].
  rewrite scan_cons in H.
  destruct (isMotionFor w ee) eqn:Hm.
  - destruct (isMotionFor_inv _ _ Hm) as (mn' & -> & Hw & Hmo).
    rewrite Hmo in H. injection H as <- <-.
    exists [], rest. simpl. repeat split; auto.
  - destruct (IH _ _ _ H) as (pre & post & -> & -> & Hpre & Hw).
    exists (ee :: pre), post. simpl. rewrite Hm.
    repeat split; auto; lia.
Qed.

Lemma scan_None (w : xproto.Window) (q : list EventOrError) :
  forall i, scan w q i = None -> filter (isMotionFor w) q = [].
Proof.
  induction q as [|ee rest IH]; intros i H; [reflexivity|].
  rewrite scan_cons in H. simpl.
  destruct (isMotionFor w ee) eqn:Hm.
  - destruct (isMotionFor_inv _ _ Hm) as (mn' & _ & _ & Hmo).
    rewrite Hmo in H. discriminate.
  - eauto.
Qed.

Lemma filter_none_keeps_all {A} (p : A -> bool) (l : list A) :
  filter p l = [] -> filter (fun x => negb (p x)) l = l.
Proof.
  induction l as [|x l IH]; simpl; [reflexivity|].
  destruct (p x); simpl; [discriminate|]. intros H. f_equal. auto.
Qed.

Lemma remove_at_middle {A} (pre post : list A) (x : A) :
  firstn (length pre) (pre ++ x :: post)
    ++ skipn (S (length pre)) (pre ++ x :: post) = pre ++ post.
Proof.
  induction pre as [|y pre IH]; [reflexivity|].
  cbn [length app firstn skipn]. f_equal. exact IH.
Qed.

Lemma nth_error_middle {A} (pre post : list A) (x : A) :
  nth_error (pre ++ x :: post) (length pre) = Some x.
Proof.
  induction pre as [|y pre IH]; [reflexivity|]. exact IH.
Qed.

(** One iteration of the compression loop. *)
Lemma coalesce_step (f : nat) (w : xproto.Window)
    (laste : xproto.InputEvent) (xu : XUtil) :
  coalesce (S f) w laste xu =
  let xu1 := setConn (unpolled (Conn xu))
               (setEvqueue (Evqueue xu ++ polled (Conn xu)) xu) in
  match scan w (Evqueue xu1) 0 with
  | Some (i, mn) =>
      prepend
        (OSync :: match nth_error (Evqueue xu1) i with
                  | Some ee => [ODequeueAt i ee]
                  | None => []
                  end)
        (coalesce f w mn
           (setEvqueue (firstn i (Evqueue xu1) ++ skipn (S i) (Evqueue xu1))
                       xu1))
  | None => Ok laste xu1 [OSync]
  end.
Proof.
  cbn [coalesce]. unfold bind at 1. cbn [Sync emit].
  unfold bind at 1. rewrite Read_false. cbn [prepend].
  unfold bind at 1. cbn [Peek prepend app].
  cbv zeta.
  destruct (scan w _ 0) as [[i mn]|] eqn:Hs.
  - unfold bind, DequeueAt. cbn [prepend app].
    destruct (coalesce f w mn _); cbn [prepend app]; try reflexivity.
  - reflexivity.
Qed.

(** What the compression loop does, whatever the connection delivers
    while it runs: it goes through a prefix [consumed] of the script,
    takes every motion notify of [w] out of the queue so extended, in
    queue order, and leaves every other entry in place. *)
Lemma coalesce_spec (f : nat) :
  forall (w : xproto.Window) (laste : xproto.InputEvent) (xu : XUtil),
    pendingWork xu < f ->
    exists consumed rest tr,
      Conn xu = consumed ++ rest /\
      coalesce f w laste xu =
        Ok (lastMotion
              (filter (isMotionFor w)
                 (Evqueue xu ++ filter (fun r => negb (isNil r)) consumed))
              laste)
           (setConn rest
              (setEvqueue
                 (filter (notMotionFor w)
                    (Evqueue xu ++ filter (fun r => negb (isNil r)) consumed))
                 xu))
           tr /\
      replacements tr =
        filter (isMotionFor w)
          (Evqueue xu ++ filter (fun r => negb (isNil r)) consumed) /\
      forallb isCoalesceObs tr = true.
Proof.
  induction f as [|f IH]; intros w laste xu Hf; [lia|].
  rewrite coalesce_step. cbv zeta.
  destruct (polled_consumed (Conn xu)) as (c1 & Hc & Hp).
  pose proof (polled_unpolled_length (Conn xu)) as Hlen.
  unfold pendingWork in Hf.
  change (Evqueue (setConn (unpolled (Conn xu))
                     (setEvqueue (Evqueue xu ++ polled (Conn xu)) xu)))
    with (Evqueue xu ++ polled (Conn xu)).
  destruct (scan w (Evqueue xu ++ polled (Conn xu)) 0) as [[i mn]|] eqn:Hs.
  - apply scan_Some in Hs. destruct Hs as (pre & post & Hq & Hi & Hpre & Hw).
    simpl in Hi. subst i. rewrite Hq.
    rewrite nth_error_middle, remove_at_middle.
    assert (Hlq : length (Evqueue xu) + length (polled (Conn xu))
                  = length pre + S (length post)).
    { rewrite <- length_app, Hq, length_app. reflexivity. }
    destruct (IH w mn
                (setEvqueue (pre ++ post)
                   (setConn (unpolled (Conn xu))
                      (setEvqueue (pre ++ motionEntry mn :: post) xu))))
      as (c2 & rest & tr & Hc2 & Hco & Hrep & Hobs).
    { unfold pendingWork; simpl. rewrite length_app. lia. }
    simpl in Hc2.
    exists (c1 ++ c2), rest,
      (OSync :: ODequeueAt (length pre) (motionEntry mn) :: tr).
    assert (Hall : Evqueue xu ++ filter (fun r => negb (isNil r)) (c1 ++ c2)
                   = pre ++ motionEntry mn :: post
                       ++ filter (fun r => negb (isNil r)) c2).
    { rewrite filter_app, Hp, app_assoc, Hq, <- app_assoc. reflexivity. }
    rewrite Hall.
    assert (Hm : isMotionFor w (motionEntry mn) = true).
    { unfold isMotionFor; simpl. apply N.eqb_eq. exact Hw. }
    assert (Hyes : filter (isMotionFor w)
                     (pre ++ motionEntry mn :: post
                        ++ filter (fun r => negb (isNil r)) c2)
                   = motionEntry mn
                       :: filter (isMotionFor w)
                            ((pre ++ post)
                               ++ filter (fun r => negb (isNil r)) c2)).
    { rewrite !filter_app. simpl. rewrite Hm, Hpre. simpl.
      rewrite filter_app. reflexivity. }
    assert (Hno : filter (notMotionFor w)
                    (pre ++ motionEntry mn :: post
                       ++ filter (fun r => negb (isNil r)) c2)
                  = filter (notMotionFor w)
                      ((pre ++ post)
                         ++ filter (fun r => negb (isNil r)) c2)).
    { rewrite !filter_app. simpl. unfold notMotionFor at 2.
      rewrite Hm. simpl. rewrite filter_app, <- app_assoc. reflexivity. }
    rewrite Hyes, Hno.
    simpl in Hco, Hrep. rewrite Hco. cbn [prepend app].
    split; [|split; [|split]].
    + rewrite Hc at 1. rewrite Hc2, app_assoc. reflexivity.
    + reflexivity.
    + simpl. rewrite Hrep. reflexivity.
    + simpl. exact Hobs.
  - apply scan_None in Hs.
    exists c1, (unpolled (Conn xu)), [OSync].
    rewrite Hp, Hs. unfold notMotionFor.
    rewrite (filter_none_keeps_all _ _ Hs).
    repeat split; auto.
Qed.

(** ** The type switch *)

Lemma prepend_prepend {A} (t t' : Trace) (r : Res A) :
  prepend t (prepend t' r) = prepend (t ++ t') r.
Proof. destruct r; simpl; rewrite ?app_assoc; reflexivity. Qed.

Lemma traceOf_prepend {A} (t : Trace) (r : Res A) :
  traceOf (prepend t r) = option_map (app t) (traceOf r).
Proof. destruct r; reflexivity. Qed.

Lemma callbackObs_quiet (xu : XUtil) (ev : xproto.XEvent) (k : EventKind)
    (w : xproto.Window) :
  forallb isQuiet (callbackObs xu ev k w) = true.
Proof.
  unfold callbackObs. simpl.
  induction (Callbacks xu k w); simpl; auto.
Qed.

Lemma coalesceObs_quiet (tr : Trace) :
  forallb isCoalesceObs tr = true -> forallb isQuiet tr = true.
Proof.
  induction tr as [|o tr IH]; simpl; [reflexivity|].
  intros H. apply andb_true_iff in H. destruct H as [Ho Htr].
  rewrite (IH Htr). destruct o; try discriminate; reflexivity.
Qed.

Lemma coalesceObs_no_calls (tr : Trace) :
  forallb isCoalesceObs tr = true -> filter isCall tr = [].
Proof.
  induction tr as [|o tr IH]; simpl; [reflexivity|].
  intros H. apply andb_true_iff in H. destruct H as [Ho Htr].
  destruct o; try discriminate; simpl; auto.
Qed.

Lemma callbackObs_calls (xu : XUtil) (ev : xproto.XEvent) (k : EventKind)
    (w : xproto.Window) :
  filter isCall (callbackObs xu ev k w) = callbackObs xu ev k w.
Proof.
  unfold callbackObs. simpl. f_equal.
  induction (Callbacks xu k w); simpl; congruence.
Qed.

Section LoopFacts.

Variable NoWindow : xproto.Window.

(** The motion-notify case (lines 154-200), whatever the connection
    delivers during the compression. *)
Lemma dispatch_motion (f : nat) (e : xproto.InputEvent) (xu : XUtil) :
  pendingWork xu < f ->
  exists consumed rest tr,
    Conn xu = consumed ++ rest /\
    replacements tr =
      filter (isMotionFor (xproto.Event e))
        (Evqueue xu ++ filter (fun r => negb (isNil r)) consumed) /\
    forallb isCoalesceObs tr = true /\
    let laste := lastMotion (replacements tr) xproto.zeroInput in
    let e' := if negb (xproto.Root laste =? 0)%N
              then xproto.overwrite e laste else e in
    dispatch NoWindow f (xproto.MotionNotifyEvent e) xu =
      Ok tt
         (setLastTime (xproto.Time e')
            (setConn rest
               (setEvqueue
                  (filter (notMotionFor (xproto.Event e))
                     (Evqueue xu
                        ++ filter (fun r => negb (isNil r)) consumed))
                  xu)))
         (tr ++ callbackObs xu (xproto.MotionNotifyEvent e') MotionNotify
                  (xproto.Event e)).
Proof.
  intros Hf.
  destruct (coalesce_spec f (xproto.Event e) xproto.zeroInput xu Hf)
    as (consumed & rest & tr & Hc & Hco & Hrep & Hobs).
  exists consumed, rest, tr. repeat (split; [assumption|]).
  cbv zeta. rewrite Hrep.
  unfold dispatch, bind. rewrite Hco.
  destruct (negb _); reflexivity.
Qed.

Lemma callbacks_quiet (ev : xproto.XEvent) (l : list Callback) :
  forallb isQuiet (map (fun cb => OCallback cb ev) l) = true.
Proof. induction l; simpl; auto. Qed.

Lemma callbacks_no_replacements (ev : xproto.XEvent) (l : list Callback)
    (tr : Trace) :
  replacements (map (fun cb => OCallback cb ev) l ++ tr) = replacements tr.
Proof. induction l; simpl; auto. Qed.

Lemma callbacks_no_replacement (ev : xproto.XEvent) (l : list Callback) :
  replacements (map (fun cb => OCallback cb ev) l) = [].
Proof. induction l; simpl; auto. Qed.

(** Every other case of the switch: no compression, so no fuel is
    needed, nothing but the last-seen timestamp changes, and what is
    shown depends on the registry and the redirection target only. *)
Lemma dispatch_other (f : nat) (ev : xproto.XEvent) (xu : XUtil) :
  isMotionEv ev = false ->
  exists t,
    dispatch NoWindow f ev xu =
      Ok tt (setLastTime t xu) (dispatchObs NoWindow xu ev) /\
    forallb isQuiet (dispatchObs NoWindow xu ev) = true /\
    replacements (dispatchObs NoWindow xu ev) = [].
Proof.
  destruct xu as [c q qt kr lt cbs].
  destruct ev; try discriminate; intros _;
    unfold dispatchObs, alone, dispatch, bind, TimeSet, runCallbacks,
      RedirectKeyGet, emit, setLastTime; cbn;
    eexists; (split; [reflexivity|]);
    rewrite ?forallb_app; cbn;
    rewrite ?callbacks_quiet, ?callbacks_no_replacements; cbn;
    rewrite ?callbacks_quiet, ?callbacks_no_replacements, ?app_nil_r;
    cbn; auto using callbacks_no_replacement.
Qed.

Lemma forallb_quiet_app (t1 t2 : Trace) :
  forallb isQuiet t1 = true -> forallb isQuiet t2 = true ->
  forallb isQuiet (t1 ++ t2) = true.
Proof. intros H1 H2. rewrite forallb_app, H1, H2. reflexivity. Qed.

(** The switch always returns, given fuel for the compression loop; it
    leaves the shutdown flag, the redirection target and the registry
    alone, adds no work, and neither pings nor dequeues from the head. *)
Lemma dispatch_frame (f : nat) (ev : xproto.XEvent) (xu : XUtil) :
  pendingWork xu < f ->
  exists xu1 tr1,
    dispatch NoWindow f ev xu = Ok tt xu1 tr1 /\
    forallb isQuiet tr1 = true /\
    pendingWork xu1 <= pendingWork xu /\
    Quit xu1 = Quit xu /\
    KeyRedirect xu1 = KeyRedirect xu /\
    Callbacks xu1 = Callbacks xu.
Proof.
  intros Hf. destruct (isMotionEv ev) eqn:Hm.
  - destruct ev; try discriminate.
    destruct (dispatch_motion f e xu Hf)
      as (consumed & rest & tr & Hc & Hrep & Hobs & Hd).
    cbv zeta in Hd. rewrite Hd. do 2 eexists. split; [reflexivity|].
    split; [|split; [|repeat split]].
    + apply forallb_quiet_app; [apply coalesceObs_quiet; exact Hobs|].
      apply callbackObs_quiet.
    + unfold pendingWork; simpl. rewrite Hc, length_app.
      pose proof (filter_length_le (notMotionFor (xproto.Event e))
                    (Evqueue xu ++ filter (fun r => negb (isNil r)) consumed)).
      pose proof (filter_length_le (fun r => negb (isNil r)) consumed).
      rewrite length_app in *. lia.
  - destruct (dispatch_other f ev xu Hm) as (t & Hd & Hq & _).
    rewrite Hd. do 2 eexists. split; [reflexivity|].
    split; [exact Hq|]. repeat split. unfold pendingWork; simpl. lia.
Qed.

(** ** The loop, one iteration at a time *)

Lemma process_stop (f : nat) (ping : bool) (xu : XUtil) :
  Evqueue xu = [] \/ Quit xu = true ->
  processEventQueue_fuel NoWindow (S f) ping xu = Ok tt xu [].
Proof.
  intros H. cbn [processEventQueue_fuel]. unfold Empty, Quitting.
  destruct (Evqueue xu); [reflexivity|].
  destruct H as [H|H]; [discriminate|]. rewrite H. reflexivity.
Qed.

Lemma process_error (f : nat) (ping : bool) (xu : XUtil)
    (ee : EventOrError) (rest : list EventOrError) (err : XError) :
  Evqueue xu = ee :: rest -> Quit xu = false -> Err ee = Some err ->
  processEventQueue_fuel NoWindow (S f) ping xu =
  prepend (pingObs ping ++ [ODequeue ee; OErrorHandler err])
    (processEventQueue_fuel NoWindow f ping (setEvqueue rest xu)).
Proof.
  intros Hq Hquit He. cbn [processEventQueue_fuel].
  unfold Empty, Quitting. rewrite Hq, Hquit.
  unfold bind, Dequeue, ErrorHandler, emit, ret, pingObs.
  destruct ping; cbn; rewrite Hq; cbn; rewrite He; cbn;
    destruct (processEventQueue_fuel NoWindow f _ _); reflexivity.
Qed.

Lemma process_nil (f : nat) (ping : bool) (xu : XUtil)
    (ee : EventOrError) (rest : list EventOrError) :
  Evqueue xu = ee :: rest -> Quit xu = false ->
  Err ee = None -> Event ee = None ->
  processEventQueue_fuel NoWindow (S f) ping xu =
  Crashed FatalNilEvent (setEvqueue rest xu) (pingObs ping ++ [ODequeue ee]).
Proof.
  intros Hq Hquit He Hev. cbn [processEventQueue_fuel].
  unfold Empty, Quitting. rewrite Hq, Hquit.
  unfold bind, Dequeue, crash, emit, ret, pingObs.
  destruct ping; cbn; rewrite Hq; cbn; rewrite He, Hev; reflexivity.
Qed.

Lemma process_event (f : nat) (ping : bool) (xu : XUtil)
    (ee : EventOrError) (rest : list EventOrError) (ev : xproto.XEvent) :
  Evqueue xu = ee :: rest -> Quit xu = false ->
  Err ee = None -> Event ee = Some ev ->
  processEventQueue_fuel NoWindow (S f) ping xu =
  prepend (pingObs ping ++ [ODequeue ee])
    ((dispatch NoWindow f ev ;; processEventQueue_fuel NoWindow f ping)
       (setEvqueue rest xu)).
Proof.
  intros Hq Hquit He Hev. cbn [processEventQueue_fuel].
  unfold Empty, Quitting. rewrite Hq, Hquit.
  unfold Dequeue, emit, ret, pingObs.
  destruct ping; unfold bind at 1; cbn; unfold bind at 1; rewrite Hq; cbn;
    rewrite He, Hev;
    destruct (bind _ _ _); reflexivity.
Qed.

Lemma process_dispatch (f : nat) (ping : bool) (xu : XUtil)
    (ee : EventOrError) (rest : list EventOrError) (ev : xproto.XEvent)
    (xu1 : XUtil) (tr1 : Trace) :
  Evqueue xu = ee :: rest -> Quit xu = false ->
  Err ee = None -> Event ee = Some ev ->
  dispatch NoWindow f ev (setEvqueue rest xu) = Ok tt xu1 tr1 ->
  processEventQueue_fuel NoWindow (S f) ping xu =
  prepend (iteration ping ee tr1)
    (processEventQueue_fuel NoWindow f ping xu1).
Proof.
  intros Hq Hquit He Hev Hd.
  rewrite (process_event f ping xu ee rest ev Hq Hquit He Hev).
  unfold bind. rewrite Hd. rewrite prepend_prepend.
  unfold iteration. rewrite <- app_assoc. reflexivity.
Qed.

Lemma pendingWork_cons (xu : XUtil) (ee : EventOrError)
    (rest : list EventOrError) :
  Evqueue xu = ee :: rest ->
  pendingWork xu = S (pendingWork (setEvqueue rest xu)).
Proof. intros H. unfold pendingWork. rewrite H. reflexivity. Qed.

End LoopFacts.

(** ** Shutdown, errors, routing *)

(** C7.  If the shutdown flag is set when a drain begins, the drain
    returns at once: no entry is dequeued, no ping is sent, neither a
    callback nor the error handler runs, and [XUtil] is unchanged. *)
Theorem shutdown_before_drain (NoWindow : xproto.Window) (ping : bool)
    (xu : XUtil) :
  Quit xu = true ->
  processEventQueue NoWindow ping xu = Ok tt xu [] /\
  forall f, processEventQueue_fuel NoWindow (S f) ping xu = Ok tt xu [].
Proof.
  intros H. split; [|intros f]; apply process_stop; right; exact H.
Qed.

Lemma shutdown_before_drain_witness :
  processEventQueue 0%N true
    (sampleXUtil [] [sampleMotion 7 1 10 1 1; mkEntry None (Some 3%N)] 0%N true)
  = Ok tt
      (sampleXUtil [] [sampleMotion 7 1 10 1 1; mkEntry None (Some 3%N)]
         0%N true) [].
Proof.
  apply (shutdown_before_drain 0%N true
           (sampleXUtil [] [sampleMotion 7 1 10 1 1; mkEntry None (Some 3%N)]
              0%N true)).
  reflexivity.
Defined.

Lemma Read_false_nothing_pending_witness :
  exists xu',
    Read false
      (sampleXUtil [mkEntry None None; sampleMotion 7 1 10 1 1]
         [mkEntry None (Some 3%N)] 0%N false)
    = Ok tt xu' [] /\
    Evqueue xu' = [mkEntry None (Some 3%N)] /\
    xu' = setConn [sampleMotion 7 1 10 1 1]
            (sampleXUtil [mkEntry None None; sampleMotion 7 1 10 1 1]
               [mkEntry None (Some 3%N)] 0%N false).
Proof.
  apply (Read_false_nothing_pending
           (sampleXUtil [mkEntry None None; sampleMotion 7 1 10 1 1]
              [mkEntry None (Some 3%N)] 0%N false)).
  reflexivity.
Defined.

Lemma dispatches_callbacks_only (ev : xproto.XEvent) (l : list Callback) :
  dispatches (map (fun cb => OCallback cb ev) l) = [].
Proof. induction l; simpl; auto. Qed.

Lemma dispatches_callbackObs (xu : XUtil) (ev : xproto.XEvent)
    (k : EventKind) (w : xproto.Window) :
  dispatches (callbackObs xu ev k w) = [(k, w, ev)].
Proof.
  unfold callbackObs. simpl. rewrite dispatches_callbacks_only. reflexivity.
Qed.

Lemma dispatches_app (t1 t2 : Trace) :
  dispatches (t1 ++ t2) = dispatches t1 ++ dispatches t2.
Proof.
  induction t1 as [|o t1 IH]; simpl; [reflexivity|].
  destruct o; simpl; rewrite IH; reflexivity.
Qed.

Lemma coalesceObs_no_dispatches (tr : Trace) :
  forallb isCoalesceObs tr = true -> dispatches tr = [].
Proof.
  induction tr as [|o tr IH]; simpl; [reflexivity|].
  intros H. apply andb_true_iff in H. destruct H as [Ho Htr].
  destruct o; try discriminate; simpl; auto.
Qed.

Section Routing.

Variable NoWindow : xproto.Window.

Lemma dispatchObs_single (xu : XUtil) (ev : xproto.XEvent) :
  isSupported ev = true -> isRequest ev = false -> isMotionEv ev = false ->
  exists k w ev', dispatches (dispatchObs NoWindow xu ev) = [(k, w, ev')].
Proof.
  destruct xu as [c q qt kr lt cbs].
  destruct ev; try discriminate; intros _ _ _;
    unfold dispatchObs, alone, dispatch, bind, TimeSet, runCallbacks,
      RedirectKeyGet, emit, setLastTime; cbn;
    rewrite ?dispatches_callbacks_only; do 3 eexists; reflexivity.
Qed.

End Routing.

(** ** The whole drain *)

Section Drain.

Variable NoWindow : xproto.Window.

(** The four ways an iteration of the loop can go. *)
Lemma process_cases (f : nat) (ping : bool) (xu : XUtil) :
  pendingWork xu < S f ->
  ((Evqueue xu = [] \/ Quit xu = true) /\
   processEventQueue_fuel NoWindow (S f) ping xu = Ok tt xu []) \/
  (exists ee rest,
     Evqueue xu = ee :: rest /\ Quit xu = false /\
     ((exists err,
         Err ee = Some err /\
         processEventQueue_fuel NoWindow (S f) ping xu =
           prepend (iteration ping ee [OErrorHandler err])
             (processEventQueue_fuel NoWindow f ping (setEvqueue rest xu))) \/
      (Err ee = None /\ Event ee = None /\
       processEventQueue_fuel NoWindow (S f) ping xu =
         Crashed FatalNilEvent (setEvqueue rest xu) (iteration ping ee [])) \/
      (exists ev xu1 tr1,
         Err ee = None /\ Event ee = Some ev /\
         dispatch NoWindow f ev (setEvqueue rest xu) = Ok tt xu1 tr1 /\
         forallb isQuiet tr1 = true /\
         pendingWork xu1 < f /\
         Quit xu1 = Quit xu /\
         KeyRedirect xu1 = KeyRedirect xu /\
         Callbacks xu1 = Callbacks xu /\
         processEventQueue_fuel NoWindow (S f) ping xu =
           prepend (iteration ping ee tr1)
             (processEventQueue_fuel NoWindow f ping xu1)))).
Proof.
  intros Hf.
  destruct (Evqueue xu) as [|ee rest] eqn:Hq.
  { left. split; [left; reflexivity|]. apply process_stop. left; exact Hq. }
  destruct (Quit xu) eqn:Hquit.
  { left. split; [right; reflexivity|]. apply process_stop. right; exact Hquit. }
  right. exists ee, rest. split; [reflexivity|]. split; [reflexivity|].
  assert (Hf' : pendingWork (setEvqueue rest xu) < f).
  { rewrite (pendingWork_cons xu ee rest Hq) in Hf. lia. }
  destruct (Err ee) as [err|] eqn:He.
  { left. exists err. split; [reflexivity|].
    apply process_error; assumption. }
  right. destruct (Event ee) as [ev|] eqn:Hev.
  - right.
    destruct (dispatch_frame NoWindow f ev (setEvqueue rest xu) Hf')
      as (xu1 & tr1 & Hd & Hquiet & Hw & Hq1 & Hk1 & Hc1).
    exists ev, xu1, tr1.
    repeat (split; [first [reflexivity|assumption|lia
                          |rewrite Hq1; exact Hquit]|]).
    eapply process_dispatch; eauto.
  - left. split; [reflexivity|]. split; [reflexivity|].
    apply process_nil; assumption.
Qed.

(** The drain always comes to an end: it returns, or it stops at the
    fatal log call for an entry with neither event nor error. *)
Lemma process_ends (f : nat) (ping : bool) :
  forall xu,
    pendingWork xu < f ->
    exists xu' tr,
      processEventQueue_fuel NoWindow f ping xu = Ok tt xu' tr \/
      processEventQueue_fuel NoWindow f ping xu = Crashed FatalNilEvent xu' tr.
Proof.
  induction f as [|f IH]; intros xu Hf; [lia|].
  destruct (process_cases f ping xu Hf)
    as [[_ H]|(ee & rest & Hq & Hquit &
               [(err & He & H)|[(He & Hev & H)|
                (ev & xu1 & tr1 & He & Hev & Hd & Hqt & Hf1 & _ & _ & _ & H)]])];
    rewrite H.
  - eauto.
  - destruct (IH (setEvqueue rest xu)) as (xu' & tr & [H'|H']).
    { rewrite (pendingWork_cons xu ee rest Hq) in Hf. lia. }
    all: rewrite H'; cbn; eauto.
  - eauto.
  - destruct (IH xu1 Hf1) as (xu' & tr & [H'|H']);
      rewrite H'; cbn; eauto.
Qed.

Lemma processEventQueue_ends (ping : bool) (xu : XUtil) :
  exists xu' tr,
    processEventQueue NoWindow ping xu = Ok tt xu' tr \/
    processEventQueue NoWindow ping xu = Crashed FatalNilEvent xu' tr.
Proof. apply process_ends. lia. Qed.

Lemma quiet_no_ping (tr : Trace) :
  forallb isQuiet tr = true ->
  filter isPing tr = [] /\ filter isDequeue tr = [].
Proof.
  induction tr as [|o tr IH]; simpl; [split; reflexivity|].
  intros H. apply andb_true_iff in H. destruct H as [Ho Htr].
  destruct (IH Htr) as [H1 H2].
  destruct o; try discriminate; simpl; split; assumption.
Qed.

Lemma pingBlocks_count (tr : Trace) :
  pingBlocks tr ->
  length (filter isPing tr) = length (filter isDequeue tr).
Proof.
  induction 1 as [|ee handling rest Hq _ IH]; [reflexivity|].
  destruct (quiet_no_ping handling Hq) as [H1 H2].
  simpl. rewrite !filter_app, H1, H2. simpl. rewrite IH. reflexivity.
Qed.

Lemma process_pingBlocks (f : nat) :
  forall xu,
    pendingWork xu < f ->
    exists tr,
      traceOf (processEventQueue_fuel NoWindow f true xu) = Some tr /\
      pingBlocks tr.
Proof.
  induction f as [|f IH]; intros xu Hf; [lia|].
  destruct (process_cases f true xu Hf)
    as [[_ H]|(ee & rest & Hq & Hquit &
               [(err & He & H)|[(He & Hev & H)|
                (ev & xu1 & tr1 & He & Hev & Hd & Hqt & Hf1 & _ & _ & _ & H)]])];
    rewrite H.
  - exists []. split; [reflexivity|constructor].
  - destruct (IH (setEvqueue rest xu)) as (tr & Ht & Hb).
    { rewrite (pendingWork_cons xu ee rest Hq) in Hf. lia. }
    rewrite traceOf_prepend, Ht. eexists. split; [reflexivity|].
    apply (pingBlocks_cons ee [OErrorHandler err] tr); auto.
  - eexists. split; [reflexivity|].
    apply (pingBlocks_cons ee [] []); [reflexivity|constructor].
  - destruct (IH xu1 Hf1) as (tr & Ht & Hb).
    rewrite traceOf_prepend, Ht. eexists. split; [reflexivity|].
    apply (pingBlocks_cons ee tr1 tr); auto.
Qed.

Lemma process_no_ping (f : nat) :
  forall xu,
    pendingWork xu < f ->
    exists tr,
      traceOf (processEventQueue_fuel NoWindow f false xu) = Some tr /\
      filter isPing tr = [].
Proof.
  induction f as [|f IH]; intros xu Hf; [lia|].
  destruct (process_cases f false xu Hf)
    as [[_ H]|(ee & rest & Hq & Hquit &
               [(err & He & H)|[(He & Hev & H)|
                (ev & xu1 & tr1 & He & Hev & Hd & Hqt & Hf1 & _ & _ & _ & H)]])];
    rewrite H.
  - exists []. split; reflexivity.
  - destruct (IH (setEvqueue rest xu)) as (tr & Ht & Hb).
    { rewrite (pendingWork_cons xu ee rest Hq) in Hf. lia. }
    rewrite traceOf_prepend, Ht. eexists. split; [reflexivity|].
    simpl. exact Hb.
  - eexists. split; reflexivity.
  - destruct (IH xu1 Hf1) as (tr & Ht & Hb).
    rewrite traceOf_prepend, Ht. eexists. split; [reflexivity|].
    destruct (quiet_no_ping tr1 Hqt) as [H1 _].
    simpl. rewrite filter_app, H1, Hb. reflexivity.
Qed.

(** C3, as the loop has it.  With a ping channel, the drain comes to an
    end and what it shows is a sequence of blocks: one ping, then the
    removal of one entry from the head of the queue, then the handling
    of that entry (its callbacks, or the error handler), with no other
    ping and no other removal from the head inside.  So there are as
    many pings as entries dequeued from the head, each sent just before
    its entry is dequeued.  The entries the compression loop takes from
    the middle of the queue are inside the handling: they get no ping
    of their own.  Without a ping channel there is no ping at all. *)
Theorem ping_before_each_dequeue (xu : XUtil) :
  (exists tr,
     traceOf (processEventQueue NoWindow true xu) = Some tr /\
     pingBlocks tr /\
     length (filter isPing tr) = length (filter isDequeue tr)) /\
  (exists tr,
     traceOf (processEventQueue NoWindow false xu) = Some tr /\
     filter isPing tr = []).
Proof.
  unfold processEventQueue. split.
  - destruct (process_pingBlocks (S (pendingWork xu)) xu) as (tr & Ht & Hb);
      [lia|].
    exists tr. repeat split; auto using pingBlocks_count.
  - apply process_no_ping. lia.
Qed.

End Drain.

(** ** One iteration, then the rest of the drain *)

Lemma coalesce_fuel (f : nat) :
  forall (f' : nat) (w : xproto.Window) (laste : xproto.InputEvent)
         (xu : XUtil),
    pendingWork xu < f -> pendingWork xu < f' ->
    coalesce f w laste xu = coalesce f' w laste xu.
Proof.
  induction f as [|f IH]; intros f' w laste xu Hf Hf'; [lia|].
  destruct f' as [|f']; [lia|].
  rewrite !coalesce_step. cbv zeta.
  pose proof (polled_unpolled_length (Conn xu)) as Hlen.
  unfold pendingWork in Hf, Hf'.
  change (Evqueue (setConn (unpolled (Conn xu))
                     (setEvqueue (Evqueue xu ++ polled (Conn xu)) xu)))
    with (Evqueue xu ++ polled (Conn xu)).
  destruct (scan w (Evqueue xu ++ polled (Conn xu)) 0) as [[i mn]|] eqn:Hs;
    [|reflexivity].
  apply scan_Some in Hs. destruct Hs as (pre & post & Hq & Hi & _ & _).
  simpl in Hi. subst i. rewrite Hq.
  rewrite nth_error_middle, remove_at_middle.
  assert (Hlq : length (Evqueue xu) + length (polled (Conn xu))
                = length pre + S (length post)).
  { rewrite <- length_app, Hq, length_app. reflexivity. }
  f_equal.
  apply IH; unfold pendingWork; simpl; rewrite length_app; lia.
Qed.

Section Steps.

Variable NoWindow : xproto.Window.

Lemma dispatch_fuel (f f' : nat) (ev : xproto.XEvent) (xu : XUtil) :
  pendingWork xu < f -> pendingWork xu < f' ->
  dispatch NoWindow f ev xu = dispatch NoWindow f' ev xu.
Proof.
  intros Hf Hf'. destruct ev; try reflexivity.
  unfold dispatch, bind.
  rewrite (coalesce_fuel f f' (xproto.Event e) xproto.zeroInput xu Hf Hf').
  reflexivity.
Qed.

(** The drain does not depend on the fuel, once there is enough. *)
Lemma process_fuel (ping : bool) (f : nat) :
  forall (f' : nat) (xu : XUtil),
    pendingWork xu < f -> pendingWork xu < f' ->
    processEventQueue_fuel NoWindow f ping xu =
    processEventQueue_fuel NoWindow f' ping xu.
Proof.
  induction f as [|f IH]; intros f' xu Hf Hf'; [lia|].
  destruct f' as [|f']; [lia|].
  destruct (Evqueue xu) as [|ee rest] eqn:Hq.
  { rewrite !(process_stop NoWindow) by (left; exact Hq). reflexivity. }
  destruct (Quit xu) eqn:Hquit.
  { rewrite !(process_stop NoWindow) by (right; exact Hquit). reflexivity. }
  pose proof (pendingWork_cons xu ee rest Hq) as Hpw.
  destruct (Err ee) as [err|] eqn:He.
  { rewrite (process_error NoWindow f ping xu ee rest err Hq Hquit He).
    rewrite (process_error NoWindow f' ping xu ee rest err Hq Hquit He).
    f_equal. apply IH; lia. }
  destruct (Event ee) as [ev|] eqn:Hev.
  2:{ rewrite (process_nil NoWindow f ping xu ee rest Hq Hquit He Hev).
      rewrite (process_nil NoWindow f' ping xu ee rest Hq Hquit He Hev).
      reflexivity. }
  destruct (dispatch_frame NoWindow f ev (setEvqueue rest xu))
    as (xu1 & tr1 & Hd & _ & Hle & _); [lia|].
  assert (Hd' : dispatch NoWindow f' ev (setEvqueue rest xu) = Ok tt xu1 tr1).
  { rewrite <- Hd. apply dispatch_fuel; lia. }
  rewrite (process_dispatch NoWindow f ping xu ee rest ev xu1 tr1
             Hq Hquit He Hev Hd).
  rewrite (process_dispatch NoWindow f' ping xu ee rest ev xu1 tr1
             Hq Hquit He Hev Hd').
  f_equal. apply IH; lia.
Qed.

Lemma showsThenGoesOn_intro (whole next : Res unit) (shown : Trace) :
  whole = prepend shown next ->
  (exists xu' tr,
     next = Ok tt xu' tr \/ next = Crashed FatalNilEvent xu' tr) ->
  showsThenGoesOn whole shown next.
Proof.
  intros Hw (xu' & tr & [Hn|Hn]); exists xu', tr; rewrite Hw, Hn;
    [left|right]; split; reflexivity.
Qed.

Lemma showsThenGoesOn_calls (whole next : Res unit) (shown : Trace) :
  showsThenGoesOn whole shown next ->
  callsOf whole = filter isCall shown ++ callsOf next.
Proof.
  intros (xu' & tr & [[Hn Hw]|[Hn Hw]]); rewrite Hn, Hw;
    unfold callsOf; cbn [traceOf]; apply filter_app.
Qed.

(** An entry with an error at the head of the queue: the drain shows
    the iteration that hands it to the error handler, then drains the
    rest. *)
Lemma drain_head_error (ping : bool) (xu : XUtil) (ee : EventOrError)
    (rest : list EventOrError) (err : XError) :
  Evqueue xu = ee :: rest -> Quit xu = false -> Err ee = Some err ->
  showsThenGoesOn (processEventQueue NoWindow ping xu)
    (iteration ping ee [OErrorHandler err])
    (processEventQueue NoWindow ping (setEvqueue rest xu)).
Proof.
  intros Hq Hquit He. apply showsThenGoesOn_intro.
  - unfold processEventQueue. rewrite (pendingWork_cons xu ee rest Hq).
    apply process_error; assumption.
  - apply processEventQueue_ends.
Qed.

(** An entry with an event at the head of the queue: the drain shows
    the iteration that dispatches it, then drains what the dispatch
    left. *)
Lemma drain_head_event (ping : bool) (xu : XUtil) (ee : EventOrError)
    (rest : list EventOrError) (ev : xproto.XEvent) (xu1 : XUtil)
    (tr1 : Trace) :
  Evqueue xu = ee :: rest -> Quit xu = false ->
  Err ee = None -> Event ee = Some ev ->
  dispatch NoWindow (pendingWork xu) ev (setEvqueue rest xu) = Ok tt xu1 tr1 ->
  showsThenGoesOn (processEventQueue NoWindow ping xu)
    (iteration ping ee tr1)
    (processEventQueue NoWindow ping xu1).
Proof.
  intros Hq Hquit He Hev Hd.
  pose proof (pendingWork_cons xu ee rest Hq) as Hpw.
  destruct (dispatch_frame NoWindow (pendingWork xu) ev (setEvqueue rest xu))
    as (xu1' & tr1' & Hd' & _ & Hle & _); [lia|].
  rewrite Hd in Hd'. injection Hd' as <- <-.
  apply showsThenGoesOn_intro.
  - unfold processEventQueue at 1.
    rewrite (process_dispatch NoWindow (pendingWork xu) ping xu ee rest ev
               xu1 tr1 Hq Hquit He Hev Hd).
    f_equal. unfold processEventQueue. apply process_fuel; lia.
  - apply processEventQueue_ends.
Qed.

End Steps.

(** ** Errors and routing *)

(** C4.  An entry that carries an error, at the head of the queue of a
    drain with the shutdown flag unset, is handed to the error handler,
    once, and to nothing else: the drain shows the ping (if any), the
    removal and that one call, and then goes on with the rest of the
    queue to the end that draining the rest on its own comes to.  The
    calls of the drain are the call of the error handler followed by
    the calls for the rest. *)
Theorem error_entry_to_handler (NoWindow : xproto.Window) (ping : bool)
    (xu : XUtil) (ee : EventOrError) (rest : list EventOrError)
    (err : XError) :
  Evqueue xu = ee :: rest -> Quit xu = false -> Err ee = Some err ->
  showsThenGoesOn (processEventQueue NoWindow ping xu)
    (iteration ping ee [OErrorHandler err])
    (processEventQueue NoWindow ping (setEvqueue rest xu)) /\
  callsOf (processEventQueue NoWindow ping xu) =
    OErrorHandler err
      :: callsOf (processEventQueue NoWindow ping (setEvqueue rest xu)).
Proof.
  intros Hq Hquit He.
  pose proof (drain_head_error NoWindow ping xu ee rest err Hq Hquit He) as H.
  split; [exact H|].
  rewrite (showsThenGoesOn_calls _ _ _ H). destruct ping; reflexivity.
Qed.

Lemma error_entry_to_handler_witness :
  showsThenGoesOn
    (processEventQueue 0%N true
       (sampleXUtil [] [mkEntry None (Some 3%N); sampleMotion 7 1 10 1 1]
          0%N false))
    (iteration true (mkEntry None (Some 3%N)) [OErrorHandler 3%N])
    (processEventQueue 0%N true
       (setEvqueue [sampleMotion 7 1 10 1 1]
          (sampleXUtil [] [mkEntry None (Some 3%N); sampleMotion 7 1 10 1 1]
             0%N false))) /\
  callsOf
    (processEventQueue 0%N true
       (sampleXUtil [] [mkEntry None (Some 3%N); sampleMotion 7 1 10 1 1]
          0%N false))
  = OErrorHandler 3%N
      :: callsOf
           (processEventQueue 0%N true
              (setEvqueue [sampleMotion 7 1 10 1 1]
                 (sampleXUtil []
                    [mkEntry None (Some 3%N); sampleMotion 7 1 10 1 1]
                    0%N false))).
Proof.
  apply (error_entry_to_handler 0%N true
           (sampleXUtil [] [mkEntry None (Some 3%N); sampleMotion 7 1 10 1 1]
              0%N false)
           (mkEntry None (Some 3%N)) [sampleMotion 7 1 10 1 1] 3%N);
    reflexivity.
Defined.

(** C5.  A key press or key release dequeued while the redirection
    lookup gives a positive identifier is dispatched, once, under that
    identifier, with its [Event] field set to it: the drain shows the
    ping (if any), the removal, and the run of the callbacks registered
    under the redirection target, then drains the rest.  A button press
    or release is dispatched under its own [Event] field whatever the
    lookup gives. *)
Theorem key_events_redirected (NoWindow : xproto.Window) (ping : bool)
    (xu : XUtil) (ee : EventOrError) (rest : list EventOrError)
    (e : xproto.InputEvent) :
  Evqueue xu = ee :: rest -> Quit xu = false -> Err ee = None ->
  (Event ee = Some (xproto.KeyPressEvent e) ->
   (0 < RedirectKeyGet xu)%N ->
   showsThenGoesOn (processEventQueue NoWindow ping xu)
     (iteration ping ee
        (callbackObs xu
           (xproto.KeyPressEvent (xproto.setEvent (RedirectKeyGet xu) e))
           KeyPress (RedirectKeyGet xu)))
     (processEventQueue NoWindow ping
        (setLastTime (xproto.Time e) (setEvqueue rest xu)))) /\
  (Event ee = Some (xproto.KeyReleaseEvent e) ->
   (0 < RedirectKeyGet xu)%N ->
   showsThenGoesOn (processEventQueue NoWindow ping xu)
     (iteration ping ee
        (callbackObs xu
           (xproto.KeyReleaseEvent (xproto.setEvent (RedirectKeyGet xu) e))
           KeyRelease (RedirectKeyGet xu)))
     (processEventQueue NoWindow ping
        (setLastTime (xproto.Time e) (setEvqueue rest xu)))) /\
  (Event ee = Some (xproto.ButtonPressEvent e) ->
   showsThenGoesOn (processEventQueue NoWindow ping xu)
     (iteration ping ee
        (callbackObs xu (xproto.ButtonPressEvent e) ButtonPress
           (xproto.Event e)))
     (processEventQueue NoWindow ping
        (setLastTime (xproto.Time e) (setEvqueue rest xu)))) /\
  (Event ee = Some (xproto.ButtonReleaseEvent e) ->
   showsThenGoesOn (processEventQueue NoWindow ping xu)
     (iteration ping ee
        (callbackObs xu (xproto.ButtonReleaseEvent e) ButtonRelease
           (xproto.Event e)))
     (processEventQueue NoWindow ping
        (setLastTime (xproto.Time e) (setEvqueue rest xu)))).
Proof.
  intros Hq Hquit He.
  repeat split; intros Hev; try intros Hr;
    apply (drain_head_event NoWindow ping xu ee rest _ _ _ Hq Hquit He Hev);
    try (apply N.ltb_lt in Hr);
    unfold dispatch, bind, RedirectKeyGet in *; cbn;
    rewrite ?Hr; reflexivity.
Qed.

Lemma key_events_redirected_witness :
  showsThenGoesOn (processEventQueue 0%N true sampleKeyState)
    (iteration true (mkEntry (Some (xproto.KeyPressEvent sampleKey)) None)
       [ORunCallbacks KeyPress 9%N
          (xproto.KeyPressEvent (sampleInput 9 1 10 2 3));
        OCallback 3 (xproto.KeyPressEvent (sampleInput 9 1 10 2 3))])
    (processEventQueue 0%N true
       (setLastTime 10%N (setEvqueue [] sampleKeyState))).
Proof.
  apply (proj1 (key_events_redirected 0%N true sampleKeyState
                  (mkEntry (Some (xproto.KeyPressEvent sampleKey)) None) []
                  sampleKey eq_refl eq_refl eq_refl));
    reflexivity.
Defined.

(** C10.  A keymap notify and a mapping notify are dispatched, once,
    under [NoWindow]: the drain shows the ping (if any), the removal, and
    the run of the callbacks registered for (KeymapNotify, NoWindow),
    respectively (MappingNotify, NoWindow), then drains the rest; no
    field of the event takes part in the routing. *)
Theorem keymap_and_mapping_under_NoWindow (NoWindow : xproto.Window)
    (ping : bool) (xu : XUtil) (ee : EventOrError)
    (rest : list EventOrError) :
  Evqueue xu = ee :: rest -> Quit xu = false -> Err ee = None ->
  (forall keys,
     Event ee = Some (xproto.KeymapNotifyEvent keys) ->
     showsThenGoesOn (processEventQueue NoWindow ping xu)
       (iteration ping ee
          (ORunCallbacks KeymapNotify NoWindow
             (xproto.KeymapNotifyEvent keys)
           :: map (fun cb => OCallback cb (xproto.KeymapNotifyEvent keys))
                (Callbacks xu KeymapNotify NoWindow)))
       (processEventQueue NoWindow ping (setEvqueue rest xu))) /\
  (forall request firstKeycode count,
     Event ee = Some (xproto.MappingNotifyEvent request firstKeycode count) ->
     showsThenGoesOn (processEventQueue NoWindow ping xu)
       (iteration ping ee
          (ORunCallbacks MappingNotify NoWindow
             (xproto.MappingNotifyEvent request firstKeycode count)
           :: map (fun cb =>
                     OCallback cb
                       (xproto.MappingNotifyEvent request firstKeycode
                          count))
                (Callbacks xu MappingNotify NoWindow)))
       (processEventQueue NoWindow ping (setEvqueue rest xu))).
Proof.
  intros Hq Hquit He.
  split; intros; eapply drain_head_event; eauto; reflexivity.
Qed.

Lemma keymap_and_mapping_under_NoWindow_witness :
  showsThenGoesOn
    (processEventQueue 0%N false
       (sampleXUtil [] [mkEntry (Some (xproto.KeymapNotifyEvent [1%N])) None]
          0%N false))
    (iteration false (mkEntry (Some (xproto.KeymapNotifyEvent [1%N])) None)
       [ORunCallbacks KeymapNotify 0%N (xproto.KeymapNotifyEvent [1%N]);
        OCallback 4 (xproto.KeymapNotifyEvent [1%N])])
    (processEventQueue 0%N false (sampleXUtil [] [] 0%N false)).
Proof.
  apply (proj1 (keymap_and_mapping_under_NoWindow 0%N false
                  (sampleXUtil []
                     [mkEntry (Some (xproto.KeymapNotifyEvent [1%N])) None]
                     0%N false)
                  (mkEntry (Some (xproto.KeymapNotifyEvent [1%N])) None) []
                  eq_refl eq_refl eq_refl) [1%N]);
    reflexivity.
Defined.

(** C6.  A map request and a configure request are dispatched twice,
    first under the subject window and then under its parent: the drain
    shows the ping (if any), the removal, the run of the callbacks of
    the window and then the run of those of the parent, then drains the
    rest.  An event of any other supported type is dispatched exactly
    once, under one identifier: what the switch shows for it holds one
    run of callbacks, and the drain shows it after the removal. *)
Theorem requests_dispatch_to_window_then_parent (NoWindow : xproto.Window)
    (ping : bool) (xu : XUtil) (ee : EventOrError)
    (rest : list EventOrError) :
  Evqueue xu = ee :: rest -> Quit xu = false -> Err ee = None ->
  (forall parent window,
     Event ee = Some (xproto.MapRequestEvent parent window) ->
     showsThenGoesOn (processEventQueue NoWindow ping xu)
       (iteration ping ee
          (callbackObs xu (xproto.MapRequestEvent parent window)
             MapRequest window
           ++ callbackObs xu (xproto.MapRequestEvent parent window)
                MapRequest parent))
       (processEventQueue NoWindow ping (setEvqueue rest xu))) /\
  (forall parent window,
     Event ee = Some (xproto.ConfigureRequestEvent parent window) ->
     showsThenGoesOn (processEventQueue NoWindow ping xu)
       (iteration ping ee
          (callbackObs xu (xproto.ConfigureRequestEvent parent window)
             ConfigureRequest window
           ++ callbackObs xu (xproto.ConfigureRequestEvent parent window)
                ConfigureRequest parent))
       (processEventQueue NoWindow ping (setEvqueue rest xu))) /\
  (forall ev,
     Event ee = Some ev ->
     isSupported ev = true -> isRequest ev = false ->
     exists xu1 handling k w ev',
       dispatch NoWindow (pendingWork xu) ev (setEvqueue rest xu)
         = Ok tt xu1 handling /\
       dispatches handling = [(k, w, ev')] /\
       showsThenGoesOn (processEventQueue NoWindow ping xu)
         (iteration ping ee handling)
         (processEventQueue NoWindow ping xu1)).
Proof.
  intros Hq Hquit He.
  pose proof (pendingWork_cons xu ee rest Hq) as Hpw.
  split; [|split].
  - intros; eapply drain_head_event; eauto.
  - intros; eapply drain_head_event; eauto.
  - intros ev Hev Hs Hr.
    destruct (isMotionEv ev) eqn:Hm.
    + destruct ev; try discriminate.
      destruct (dispatch_motion NoWindow (pendingWork xu) e
                  (setEvqueue rest xu))
        as (consumed & rest' & tr & Hc & Hrep & Hobs & Hd); [lia|].
      cbv zeta in Hd.
      do 5 eexists. split; [exact Hd|]. split.
      * rewrite dispatches_app, (coalesceObs_no_dispatches tr Hobs).
        rewrite dispatches_callbackObs. reflexivity.
      * eapply drain_head_event; eauto.
    + destruct (dispatch_other NoWindow (pendingWork xu) ev
                  (setEvqueue rest xu) Hm)
        as (t & Hd & _ & _).
      destruct (dispatchObs_single NoWindow (setEvqueue rest xu) ev Hs Hr Hm)
        as (k & w & ev' & Hone).
      exists (setLastTime t (setEvqueue rest xu)),
        (dispatchObs NoWindow (setEvqueue rest xu) ev), k, w, ev'.
      split; [exact Hd|]. split; [exact Hone|].
      eapply drain_head_event; eauto.
Qed.

Lemma requests_dispatch_to_window_then_parent_witness :
  showsThenGoesOn
    (processEventQueue 0%N false
       (sampleXUtil []
          [mkEntry (Some (xproto.MapRequestEvent 5%N 6%N)) None;
           mkEntry None (Some 3%N)]
          0%N false))
    (iteration false (mkEntry (Some (xproto.MapRequestEvent 5%N 6%N)) None)
       [ORunCallbacks MapRequest 6%N (xproto.MapRequestEvent 5%N 6%N);
        OCallback 4 (xproto.MapRequestEvent 5%N 6%N);
        ORunCallbacks MapRequest 5%N (xproto.MapRequestEvent 5%N 6%N);
        OCallback 4 (xproto.MapRequestEvent 5%N 6%N)])
    (processEventQueue 0%N false
       (sampleXUtil [] [mkEntry None (Some 3%N)] 0%N false)).
Proof.
  apply (proj1 (requests_dispatch_to_window_then_parent 0%N false
                  (sampleXUtil []
                     [mkEntry (Some (xproto.MapRequestEvent 5%N 6%N)) None;
                      mkEntry None (Some 3%N)]
                     0%N false)
                  (mkEntry (Some (xproto.MapRequestEvent 5%N 6%N)) None)
                  [mkEntry None (Some 3%N)]
                  eq_refl eq_refl eq_refl) 5%N 6%N);
    reflexivity.
Defined.

(** C3, as stated, fails: two motion notifies of one window leave the
    queue in one iteration, after one ping. *)
Lemma not_one_ping_per_removal :
  ~ onePingPerRemoval 0%N
      (sampleXUtil []
         [sampleMotion 7 1 10 1 1; sampleMotion 7 1 11 2 2] 0%N false).
Proof.
  intros H. specialize (H _ eq_refl). vm_compute in H. discriminate H.
Qed.

(** ** Motion compression *)

Lemma replacements_app (t1 t2 : Trace) :
  replacements (t1 ++ t2) = replacements t1 ++ replacements t2.
Proof.
  induction t1 as [|o t1 IH]; simpl; [reflexivity|].
  destruct o; simpl; rewrite IH; reflexivity.
Qed.

Lemma replacements_callbackObs (xu : XUtil) (ev : xproto.XEvent)
    (k : EventKind) (w : xproto.Window) :
  replacements (callbackObs xu ev k w) = [].
Proof. unfold callbackObs. simpl. apply callbacks_no_replacement. Qed.

Lemma coalesceObs_no_dequeue (tr : Trace) :
  forallb isCoalesceObs tr = true -> filter isDequeue tr = [].
Proof.
  intros H. apply quiet_no_ping. apply coalesceObs_quiet. exact H.
Qed.

Lemma callbackObs_no_dequeue (xu : XUtil) (ev : xproto.XEvent)
    (k : EventKind) (w : xproto.Window) :
  filter isDequeue (callbackObs xu ev k w) = [].
Proof. apply quiet_no_ping. apply callbackObs_quiet. Qed.

(** [laste], after entries that are all motion notifies, is the last of
    them, and its starting value if there is none. *)
Lemma lastMotion_lastOf (w : xproto.Window) (l : list EventOrError) :
  forall d,
    filter (isMotionFor w) l = l ->
    match lastOf l with
    | Some mn => lastMotion l d = mn
    | None => l = [] /\ lastMotion l d = d
    end.
Proof.
  unfold lastOf.
  induction l as [|ee l IH] using rev_ind; intros d Hall.
  - simpl. split; reflexivity.
  - rewrite rev_app_distr. simpl.
    rewrite filter_app in Hall.
    assert (Hee : isMotionFor w ee = true).
    { destruct (isMotionFor w ee) eqn:Hm; [reflexivity|].
      exfalso. simpl in Hall. rewrite Hm, app_nil_r in Hall.
      pose proof (filter_length_le (isMotionFor w) l) as Hle.
      rewrite Hall, length_app in Hle. simpl in Hle. lia. }
    destruct (isMotionFor_inv w ee Hee) as (mn & -> & _ & Hmo).
    rewrite Hmo.
    clear. revert d. induction l as [|x l IH]; intros d; simpl; auto.
Qed.

Lemma filter_idem {A} (p : A -> bool) (l : list A) :
  filter p (filter p l) = filter p l.
Proof.
  induction l as [|x l IH]; simpl; [reflexivity|].
  destruct (p x) eqn:Hp; simpl; rewrite ?Hp, IH; reflexivity.
Qed.

Section Compression.

Variable NoWindow : xproto.Window.

(** The motion-notify case in full: what is taken
    from the queue, what stays, and what is dispatched. *)
Lemma motion_iteration (f : nat) (ping : bool) (xu : XUtil)
    (ee : EventOrError) (rest : list EventOrError) (e : xproto.InputEvent) :
  Evqueue xu = ee :: rest -> Quit xu = false -> Err ee = None ->
  Event ee = Some (xproto.MotionNotifyEvent e) ->
  pendingWork xu <= f ->
  exists consumed conn' xu1 handling e',
    Conn xu = consumed ++ conn' /\
    dispatch NoWindow f (xproto.MotionNotifyEvent e) (setEvqueue rest xu)
      = Ok tt xu1 handling /\
    processEventQueue_fuel NoWindow (S f) ping xu =
      prepend (iteration ping ee handling)
        (processEventQueue_fuel NoWindow f ping xu1) /\
    xu1 = setLastTime (xproto.Time e')
            (setConn conn'
               (setEvqueue
                  (filter (notMotionFor (xproto.Event e))
                     (rest ++ filter (fun r => negb (isNil r)) consumed))
                  xu)) /\
    replacements handling =
      filter (isMotionFor (xproto.Event e))
        (rest ++ filter (fun r => negb (isNil r)) consumed) /\
    filter isDequeue handling = [] /\
    dispatches handling =
      [(MotionNotify, xproto.Event e, xproto.MotionNotifyEvent e')] /\
    filter isCall handling =
      callbackObs xu (xproto.MotionNotifyEvent e') MotionNotify
        (xproto.Event e) /\
    match lastReplacement handling with
    | Some mn =>
        e' = if (xproto.Root mn =? 0)%N then e else xproto.overwrite e mn
    | None => e' = e
    end.
Proof.
  intros Hq Hquit He Hev Hf.
  assert (Hf' : pendingWork (setEvqueue rest xu) < f).
  { rewrite (pendingWork_cons xu ee rest Hq) in Hf. lia. }
  destruct (dispatch_motion NoWindow f e (setEvqueue rest xu) Hf')
    as (consumed & conn' & tr & Hc & Hrep & Hobs & Hd).
  cbv zeta in Hd. simpl in Hc, Hrep.
  assert (Hreps :
    replacements
      (tr ++ callbackObs (setEvqueue rest xu)
               (xproto.MotionNotifyEvent
                  (if negb (xproto.Root
                              (lastMotion (replacements tr) xproto.zeroInput)
                            =? 0)%N
                   then xproto.overwrite e
                          (lastMotion (replacements tr) xproto.zeroInput)
                   else e))
               MotionNotify (xproto.Event e))
    = replacements tr).
  { rewrite replacements_app, replacements_callbackObs. apply app_nil_r. }
  do 5 eexists.
  split; [exact Hc|]. split; [exact Hd|].
  split; [eapply process_dispatch; eauto|].
  split; [destruct xu; reflexivity|].
  split; [rewrite Hreps; exact Hrep|].
  split.
  { rewrite filter_app, (coalesceObs_no_dequeue tr Hobs).
    apply callbackObs_no_dequeue. }
  split.
  { rewrite dispatches_app, (coalesceObs_no_dispatches tr Hobs).
    apply dispatches_callbackObs. }
  split.
  { rewrite filter_app, (coalesceObs_no_calls tr Hobs).
    exact (callbackObs_calls xu _ _ _). }
  unfold lastReplacement. rewrite Hreps.
  assert (Hall : filter (isMotionFor (xproto.Event e)) (replacements tr)
                 = replacements tr).
  { rewrite Hrep. apply filter_idem. }
  pose proof (lastMotion_lastOf (xproto.Event e) (replacements tr)
                xproto.zeroInput Hall) as Hl.
  destruct (lastOf (replacements tr)) as [mn|].
  - rewrite Hl. destruct (xproto.Root mn =? 0)%N; reflexivity.
  - destruct Hl as [_ Hl]. rewrite Hl. reflexivity.
Qed.

End Compression.

(** C9.  While a dequeued motion notify [e] is compressed, whatever the
    connection delivers meanwhile ([consumed], queued by [Read]), the
    entries taken out of the queue are exactly its motion notifies of
    [e]'s window that carry no error, in queue order, and nothing is
    dequeued from the head; every other entry (an error, an event of
    another type, a motion notify of another window) stays in the queue,
    in its original relative order. *)
Theorem compression_removes_only_matching (NoWindow : xproto.Window)
    (f : nat) (ping : bool) (xu : XUtil)
    (ee : EventOrError) (rest : list EventOrError) (e : xproto.InputEvent) :
  Evqueue xu = ee :: rest -> Quit xu = false -> Err ee = None ->
  Event ee = Some (xproto.MotionNotifyEvent e) ->
  pendingWork xu <= f ->
  exists consumed conn' xu1 handling,
    Conn xu = consumed ++ conn' /\
    dispatch NoWindow f (xproto.MotionNotifyEvent e) (setEvqueue rest xu)
      = Ok tt xu1 handling /\
    processEventQueue_fuel NoWindow (S f) ping xu =
      prepend (iteration ping ee handling)
        (processEventQueue_fuel NoWindow f ping xu1) /\
    Conn xu1 = conn' /\
    Evqueue xu1 =
      filter (notMotionFor (xproto.Event e))
        (rest ++ filter (fun r => negb (isNil r)) consumed) /\
    replacements handling =
      filter (isMotionFor (xproto.Event e))
        (rest ++ filter (fun r => negb (isNil r)) consumed) /\
    filter isDequeue handling = [] /\
    (forall r,
       In r (replacements handling) ->
       Err r = None /\
       exists mn,
         Event r = Some (xproto.MotionNotifyEvent mn) /\
         xproto.Event mn = xproto.Event e).
Proof.
  intros Hq Hquit He Hev Hf.
  destruct (motion_iteration NoWindow f ping xu ee rest e Hq Hquit He Hev Hf)
    as (consumed & conn' & xu1 & handling & e' & Hc & Hd & Hp & Hxu1 & Hrep
        & Hdq & _).
  exists consumed, conn', xu1, handling.
  repeat (split; [first [assumption | rewrite Hxu1; reflexivity]|]).
  intros r Hin. rewrite Hrep in Hin. apply filter_In in Hin.
  destruct Hin as [_ Hm].
  destruct (isMotionFor_inv _ _ Hm) as (mn & -> & Hw & _).
  split; [reflexivity|]. exists mn. split; [reflexivity|exact Hw].
Qed.

Lemma compression_removes_only_matching_witness :
  exists consumed conn' xu1 handling,
    Conn sampleBurst = consumed ++ conn' /\
    dispatch 0%N 6 (xproto.MotionNotifyEvent (sampleInput 7 1 10 1 1))
      (setEvqueue
         [mkEntry None (Some 3%N); sampleMotion 8 1 11 2 2;
          sampleMotion 7 1 12 3 3] sampleBurst)
      = Ok tt xu1 handling /\
    processEventQueue_fuel 0%N 7 true sampleBurst =
      prepend (iteration true (sampleMotion 7 1 10 1 1) handling)
        (processEventQueue_fuel 0%N 6 true xu1) /\
    Conn xu1 = conn' /\
    Evqueue xu1 =
      filter (notMotionFor 7%N)
        ([mkEntry None (Some 3%N); sampleMotion 8 1 11 2 2;
          sampleMotion 7 1 12 3 3]
           ++ filter (fun r => negb (isNil r)) consumed) /\
    replacements handling =
      filter (isMotionFor 7%N)
        ([mkEntry None (Some 3%N); sampleMotion 8 1 11 2 2;
          sampleMotion 7 1 12 3 3]
           ++ filter (fun r => negb (isNil r)) consumed) /\
    filter isDequeue handling = [] /\
    (forall r,
       In r (replacements handling) ->
       Err r = None /\
       exists mn,
         Event r = Some (xproto.MotionNotifyEvent mn) /\
         xproto.Event mn = 7%N).
Proof.
  apply (compression_removes_only_matching 0%N 6 true sampleBurst
           (sampleMotion 7 1 10 1 1)
           [mkEntry None (Some 3%N); sampleMotion 8 1 11 2 2;
            sampleMotion 7 1 12 3 3]
           (sampleInput 7 1 10 1 1));
    first [reflexivity | vm_compute; lia].
Defined.

(** C1, as the loop has it.  A dequeued motion notify [e] is dispatched
    once, under its own window.  If the compression loop found a
    replacement and the last one found has a root window other than 0,
    [e] is dispatched with the time, root X/Y and event X/Y of that last
    replacement, and the last-seen timestamp is set to its time.  If the
    last one found has root window 0, or none was found, [e] is
    dispatched with its own time and position. *)
Theorem motion_carries_last_rooted_replacement (NoWindow : xproto.Window)
    (f : nat) (ping : bool) (xu : XUtil)
    (ee : EventOrError) (rest : list EventOrError) (e : xproto.InputEvent) :
  Evqueue xu = ee :: rest -> Quit xu = false -> Err ee = None ->
  Event ee = Some (xproto.MotionNotifyEvent e) ->
  pendingWork xu <= f ->
  exists xu1 handling e',
    dispatch NoWindow f (xproto.MotionNotifyEvent e) (setEvqueue rest xu)
      = Ok tt xu1 handling /\
    processEventQueue_fuel NoWindow (S f) ping xu =
      prepend (iteration ping ee handling)
        (processEventQueue_fuel NoWindow f ping xu1) /\
    dispatches handling =
      [(MotionNotify, xproto.Event e, xproto.MotionNotifyEvent e')] /\
    LastTime xu1 = xproto.Time e' /\
    match lastReplacement handling with
    | Some mn =>
        e' = if (xproto.Root mn =? 0)%N then e else xproto.overwrite e mn
    | None => e' = e
    end.
Proof.
  intros Hq Hquit He Hev Hf.
  destruct (motion_iteration NoWindow f ping xu ee rest e Hq Hquit He Hev Hf)
    as (consumed & conn' & xu1 & handling & e' & Hc & Hd & Hp & Hxu1 & Hrep
        & Hdq & Hdis & _ & Hlast).
  exists xu1, handling, e'.
  repeat (split; [first [assumption | rewrite Hxu1; reflexivity]|]).
  exact Hlast.
Qed.

Lemma motion_carries_last_rooted_replacement_witness :
  exists xu1 handling e',
    dispatch 0%N 6 (xproto.MotionNotifyEvent (sampleInput 7 1 10 1 1))
      (setEvqueue
         [mkEntry None (Some 3%N); sampleMotion 8 1 11 2 2;
          sampleMotion 7 1 12 3 3] sampleBurst)
      = Ok tt xu1 handling /\
    processEventQueue_fuel 0%N 7 false sampleBurst =
      prepend (iteration false (sampleMotion 7 1 10 1 1) handling)
        (processEventQueue_fuel 0%N 6 false xu1) /\
    dispatches handling =
      [(MotionNotify, 7%N, xproto.MotionNotifyEvent e')] /\
    LastTime xu1 = xproto.Time e' /\
    match lastReplacement handling with
    | Some mn =>
        e' = if (xproto.Root mn =? 0)%N
             then sampleInput 7 1 10 1 1
             else xproto.overwrite (sampleInput 7 1 10 1 1) mn
    | None => e' = sampleInput 7 1 10 1 1
    end.
Proof.
  apply (motion_carries_last_rooted_replacement 0%N 6 false sampleBurst
           (sampleMotion 7 1 10 1 1)
           [mkEntry None (Some 3%N); sampleMotion 8 1 11 2 2;
            sampleMotion 7 1 12 3 3]
           (sampleInput 7 1 10 1 1));
    first [reflexivity | vm_compute; lia].
Defined.

(** C1, as stated, fails: a replacement whose root window is 0 is taken
    from the queue, and [e] is dispatched with its own time and
    position. *)
Lemma motion_not_overwritten_when_root_is_zero :
  ~ motionOverwrittenByLast 0%N 3
      (sampleXUtil [] [sampleMotion 7 0 11 5 5] 0%N false)
      (sampleInput 7 1 10 1 1).
Proof.
  intros H. specialize (H _ _ _ eq_refl eq_refl).
  vm_compute in H. discriminate H.
Qed.

(** ** The order of dispatch *)

Lemma collapse_motion (ee : EventOrError) (rest : list EventOrError)
    (e : xproto.InputEvent) :
  motionOf ee = Some e ->
  collapse (ee :: rest) =
  motionEntry (carry e (filter (isMotionFor (xproto.Event e)) rest))
    :: collapse (filter (notMotionFor (xproto.Event e)) rest).
Proof. intros H. simp collapse. rewrite H. reflexivity. Qed.

Lemma collapse_other (ee : EventOrError) (rest : list EventOrError) :
  motionOf ee = None -> collapse (ee :: rest) = ee :: collapse rest.
Proof. intros H. simp collapse. rewrite H. reflexivity. Qed.

Lemma carry_Event (e : xproto.InputEvent) (later : list EventOrError) :
  xproto.Event (carry e later) = xproto.Event e.
Proof.
  unfold carry. destruct (lastOf later) as [mn|]; [|reflexivity].
  destruct (xproto.Root mn =? 0)%N; reflexivity.
Qed.

Lemma calls_iteration (ping : bool) (ee : EventOrError) (handling : Trace) :
  filter isCall (iteration ping ee handling) = filter isCall handling.
Proof. destruct ping; reflexivity. Qed.

Section Order.

Variable NoWindow : xproto.Window.

Lemma dispatchObs_motion (xu : XUtil) (e : xproto.InputEvent) :
  dispatchObs NoWindow xu (xproto.MotionNotifyEvent e) =
  OSync :: callbackObs xu (xproto.MotionNotifyEvent e) MotionNotify
             (xproto.Event e).
Proof. reflexivity. Qed.

Lemma entryCalls_frame (xu xu1 : XUtil) (ee : EventOrError) :
  KeyRedirect xu1 = KeyRedirect xu -> Callbacks xu1 = Callbacks xu ->
  entryCalls NoWindow xu1 ee = entryCalls NoWindow xu ee.
Proof.
  intros Hk Hc. unfold entryCalls, dispatchObs, alone.
  rewrite Hk, Hc. reflexivity.
Qed.

Lemma entryCalls_motion (xu : XUtil) (e : xproto.InputEvent) :
  entryCalls NoWindow xu (motionEntry e) =
  callbackObs xu (xproto.MotionNotifyEvent e) MotionNotify (xproto.Event e).
Proof.
  unfold entryCalls. cbn [motionEntry Err Event].
  rewrite dispatchObs_motion. cbn [filter isCall].
  apply callbackObs_calls.
Qed.

Lemma motionOf_error (ee : EventOrError) (err : XError) :
  Err ee = Some err -> motionOf ee = None.
Proof. unfold motionOf. intros ->. reflexivity. Qed.

Lemma motionOf_other (ee : EventOrError) (ev : xproto.XEvent) :
  Event ee = Some ev -> isMotionEv ev = false -> motionOf ee = None.
Proof.
  unfold motionOf. intros -> H. destruct (Err ee); [reflexivity|].
  destruct ev; try reflexivity. discriminate H.
Qed.

Lemma motionOf_motion (ee : EventOrError) (e : xproto.InputEvent) :
  Err ee = None -> Event ee = Some (xproto.MotionNotifyEvent e) ->
  motionOf ee = Some e.
Proof. unfold motionOf. intros -> ->. reflexivity. Qed.

Lemma Forall_holds_filter (p : EventOrError -> bool)
    (l : list EventOrError) :
  Forall holdsSomething l -> Forall holdsSomething (filter p l).
Proof.
  intros H. apply Forall_forall. intros x Hx. apply filter_In in Hx.
  destruct Hx as [Hx _]. revert x Hx. apply Forall_forall. exact H.
Qed.

Lemma flat_entryCalls_frame (xu xu1 : XUtil) (l : list EventOrError) :
  KeyRedirect xu1 = KeyRedirect xu -> Callbacks xu1 = Callbacks xu ->
  flat_map (entryCalls NoWindow xu1) l = flat_map (entryCalls NoWindow xu) l.
Proof.
  intros Hk Hc. apply flat_map_ext. intros a.
  apply entryCalls_frame; assumption.
Qed.

(** With nothing more to come from the connection, the drain empties
    the queue and invokes, in order, what the entries of the collapsed
    queue invoke one by one. *)
Lemma drain_calls (ping : bool) (f : nat) :
  forall xu,
    Conn xu = [] -> Quit xu = false ->
    Forall holdsSomething (Evqueue xu) ->
    pendingWork xu < f ->
    exists xu' tr,
      processEventQueue_fuel NoWindow f ping xu = Ok tt xu' tr /\
      Evqueue xu' = [] /\
      filter isCall tr =
        flat_map (entryCalls NoWindow xu) (collapse (Evqueue xu)).
Proof.
  induction f as [|f IH]; intros xu Hconn Hquit Hall Hf; [lia|].
  destruct (Evqueue xu) as [|ee rest] eqn:Hq.
  { exists xu, []. split; [apply process_stop; left; exact Hq|].
    split; [exact Hq|]. simp collapse. reflexivity. }
  assert (Hf' : pendingWork (setEvqueue rest xu) < f).
  { rewrite (pendingWork_cons xu ee rest Hq) in Hf. lia. }
  inversion Hall as [|? ? Hee Hrest]; subst.
  destruct (Err ee) as [err|] eqn:He.
  { destruct (IH (setEvqueue rest xu) Hconn Hquit Hrest Hf')
      as (xu' & tr & Hp & Hempty & Hcalls).
    rewrite (process_error NoWindow f ping xu ee rest err Hq Hquit He), Hp.
    do 2 eexists. split; [reflexivity|]. split; [exact Hempty|].
    change (pingObs ping ++ [ODequeue ee; OErrorHandler err])
      with (iteration ping ee [OErrorHandler err]).
    rewrite filter_app, calls_iteration, Hcalls.
    rewrite (flat_entryCalls_frame xu (setEvqueue rest xu) _ eq_refl eq_refl).
    rewrite (collapse_other ee rest (motionOf_error ee err He)).
    assert (Hee' : entryCalls NoWindow xu ee = [OErrorHandler err])
      by (unfold entryCalls; rewrite He; reflexivity).
    cbn [flat_map Evqueue setEvqueue]. rewrite Hee'. reflexivity. }
  destruct (Event ee) as [ev|] eqn:Hev.
  2:{ exfalso. unfold holdsSomething, isNil in Hee.
      rewrite He, Hev in Hee. discriminate Hee. }
  destruct (isMotionEv ev) eqn:Hm.
  - destruct ev; try discriminate.
    assert (Hle : pendingWork xu <= f) by lia.
    destruct (motion_iteration NoWindow f ping xu ee rest e Hq Hquit He Hev
                Hle)
      as (consumed & conn' & xu1 & handling & e' & Hc & _ & Hp & Hxu1 & Hrep
          & _ & _ & Hhc & Hlast).
    rewrite Hconn in Hc. symmetry in Hc. apply app_eq_nil in Hc.
    destruct Hc as [-> ->]. cbn [filter] in Hxu1, Hrep.
    rewrite app_nil_r in Hxu1, Hrep.
    assert (He' : e' = carry e (filter (isMotionFor (xproto.Event e)) rest)).
    { unfold carry. unfold lastReplacement in Hlast. rewrite Hrep in Hlast.
      destruct (lastOf _); exact Hlast. }
    destruct (IH xu1) as (xu' & tr & Hp' & Hempty & Hcalls).
    + rewrite Hxu1. reflexivity.
    + rewrite Hxu1. exact Hquit.
    + rewrite Hxu1. cbn. apply Forall_holds_filter. exact Hrest.
    + rewrite Hxu1. unfold pendingWork in *. cbn.
      pose proof (filter_length_le (notMotionFor (xproto.Event e)) rest).
      rewrite Hq, Hconn in Hf. cbn in Hf. lia.
    + rewrite Hp, Hp'. do 2 eexists. split; [reflexivity|].
      split; [exact Hempty|].
      rewrite filter_app, calls_iteration, Hhc, Hcalls.
      rewrite (flat_entryCalls_frame xu xu1 _)
        by (rewrite Hxu1; reflexivity).
      rewrite (collapse_motion ee rest e (motionOf_motion ee e He Hev)).
      cbn [flat_map]. rewrite entryCalls_motion, carry_Event, <- He'.
      rewrite Hxu1. reflexivity.
  - destruct (dispatch_other NoWindow f ev (setEvqueue rest xu) Hm)
      as (t & Hd & _ & _).
    destruct (IH (setLastTime t (setEvqueue rest xu)) Hconn Hquit Hrest Hf')
      as (xu' & tr & Hp & Hempty & Hcalls).
    rewrite (process_dispatch NoWindow f ping xu ee rest ev _ _
               Hq Hquit He Hev Hd), Hp.
    do 2 eexists. split; [reflexivity|]. split; [exact Hempty|].
    rewrite filter_app, calls_iteration, Hcalls.
    rewrite (flat_entryCalls_frame xu (setLastTime t (setEvqueue rest xu)) _
               eq_refl eq_refl).
    rewrite (collapse_other ee rest (motionOf_other ee ev Hev Hm)).
    assert (Hee' : entryCalls NoWindow xu ee
                   = filter isCall (dispatchObs NoWindow xu ev))
      by (unfold entryCalls; rewrite He, Hev; reflexivity).
    cbn [flat_map Evqueue setEvqueue setLastTime]. rewrite Hee'.
    reflexivity.
Qed.

Lemma motionOf_entry (ee : EventOrError) (e : xproto.InputEvent) :
  motionOf ee = Some e -> ee = motionEntry e.
Proof.
  destruct ee as [[ev|] [er|]]; simpl; try discriminate.
  destruct ev; simpl; try discriminate. intros H. injection H as ->.
  reflexivity.
Qed.

Lemma collapse_single (ee : EventOrError) : collapse [ee] = [ee].
Proof.
  destruct (motionOf ee) as [e|] eqn:Hm.
  - rewrite (collapse_motion ee [] e Hm). simpl. simp collapse.
    rewrite (motionOf_entry ee e Hm). reflexivity.
  - rewrite (collapse_other ee [] Hm). simp collapse. reflexivity.
Qed.

(** Drained on its own, an entry invokes what [entryCalls] says. *)
Lemma aloneCalls_entryCalls (ping : bool) (xu : XUtil) (ee : EventOrError) :
  Conn xu = [] -> Quit xu = false ->
  aloneCalls NoWindow ping xu ee = entryCalls NoWindow xu ee.
Proof.
  intros Hconn Hquit. unfold aloneCalls, processEventQueue.
  assert (Hw : pendingWork (setEvqueue [ee] xu) = 1).
  { unfold pendingWork. cbn. rewrite Hconn. reflexivity. }
  rewrite Hw.
  destruct (isNil ee) eqn:Hnil.
  - unfold isNil in Hnil.
    destruct (Event ee) as [ev|] eqn:Hev; [discriminate|].
    destruct (Err ee) as [err|] eqn:He; [discriminate|].
    rewrite (process_nil NoWindow 1 ping (setEvqueue [ee] xu) ee []
               eq_refl Hquit He Hev).
    unfold callsOf, entryCalls. cbn [traceOf].
    change (pingObs ping ++ [ODequeue ee]) with (iteration ping ee []).
    rewrite calls_iteration, He, Hev. reflexivity.
  - destruct (drain_calls ping 2 (setEvqueue [ee] xu) Hconn Hquit)
      as (xu' & tr & Hp & _ & Hcalls).
    + constructor; [exact Hnil|constructor].
    + rewrite Hw. lia.
    + rewrite Hp. unfold callsOf. cbn [traceOf]. rewrite Hcalls.
      cbn [Evqueue setEvqueue]. rewrite collapse_single.
      cbn [flat_map]. rewrite app_nil_r.
      apply entryCalls_frame; reflexivity.
Qed.

(** C2, as the loop has it.  Take a queue whose entries each hold an
    event or an error, drained with the shutdown flag unset while
    nothing more arrives from the connection.  The drain returns with
    the queue empty, and the calls it makes (error handler and
    callbacks) are, in order, those of the entries of the collapsed
    queue, each as it is handled on its own: entries keep their relative
    order, and the motion notifies of one window collapse into one
    dispatch, at the place of the first, with the time and position of
    the last when the last has a root window other than 0 (and with its
    own otherwise).  In particular three motion notifies of one window,
    the third with a root window other than 0, yield one dispatch, with
    the time and position of the third. *)
Theorem drain_in_order_collapsing_motion (ping : bool) (xu : XUtil) :
  Conn xu = [] -> Quit xu = false ->
  Forall holdsSomething (Evqueue xu) ->
  (exists xu' tr,
     processEventQueue NoWindow ping xu = Ok tt xu' tr /\
     Evqueue xu' = [] /\
     filter isCall tr =
       flat_map (aloneCalls NoWindow ping xu) (collapse (Evqueue xu))) /\
  (forall m1 m2 m3,
     Evqueue xu = [motionEntry m1; motionEntry m2; motionEntry m3] ->
     xproto.Event m2 = xproto.Event m1 ->
     xproto.Event m3 = xproto.Event m1 ->
     xproto.Root m3 <> 0%N ->
     callsOf (processEventQueue NoWindow ping xu) =
       callbackObs xu (xproto.MotionNotifyEvent (xproto.overwrite m1 m3))
         MotionNotify (xproto.Event m1) /\
     dispatches (callsOf (processEventQueue NoWindow ping xu)) =
       [(MotionNotify, xproto.Event m1,
         xproto.MotionNotifyEvent (xproto.overwrite m1 m3))]).
Proof.
  intros Hconn Hquit Hall.
  destruct (drain_calls ping (S (pendingWork xu)) xu Hconn Hquit Hall)
    as (xu' & tr & Hp & Hempty & Hcalls); [lia|].
  fold (processEventQueue NoWindow ping xu) in Hp.
  split.
  - exists xu', tr. split; [exact Hp|]. split; [exact Hempty|].
    rewrite Hcalls. apply flat_map_ext. intros a. symmetry.
    apply aloneCalls_entryCalls; assumption.
  - intros m1 m2 m3 Hq H2 H3 Hroot.
    assert (Hc : callsOf (processEventQueue NoWindow ping xu) =
                 callbackObs xu
                   (xproto.MotionNotifyEvent (xproto.overwrite m1 m3))
                   MotionNotify (xproto.Event m1)).
    { rewrite Hp. unfold callsOf. cbn [traceOf]. rewrite Hcalls, Hq.
      rewrite (collapse_motion (motionEntry m1)
                 [motionEntry m2; motionEntry m3] m1 eq_refl).
      assert (Hm2 : isMotionFor (xproto.Event m1) (motionEntry m2) = true).
      { unfold isMotionFor; simpl. apply N.eqb_eq. exact H2. }
      assert (Hm3 : isMotionFor (xproto.Event m1) (motionEntry m3) = true).
      { unfold isMotionFor; simpl. apply N.eqb_eq. exact H3. }
      cbn [filter]. unfold notMotionFor. rewrite Hm2, Hm3. cbn [negb].
      simp collapse. cbn [flat_map]. rewrite app_nil_r.
      rewrite entryCalls_motion, carry_Event.
      unfold carry, lastOf. cbn [rev app motionOf motionEntry Err Event].
      apply N.eqb_neq in Hroot. rewrite Hroot. reflexivity. }
    split; [exact Hc|]. rewrite Hc. apply dispatches_callbackObs.
Qed.

End Order.

Lemma drain_in_order_collapsing_motion_witness :
  (exists xu' tr,
     processEventQueue 0%N true sampleThree = Ok tt xu' tr /\
     Evqueue xu' = [] /\
     filter isCall tr =
       flat_map (aloneCalls 0%N true sampleThree)
         (collapse (Evqueue sampleThree))) /\
  (forall m1 m2 m3,
     Evqueue sampleThree = [motionEntry m1; motionEntry m2; motionEntry m3] ->
     xproto.Event m2 = xproto.Event m1 ->
     xproto.Event m3 = xproto.Event m1 ->
     xproto.Root m3 <> 0%N ->
     callsOf (processEventQueue 0%N true sampleThree) =
       callbackObs sampleThree
         (xproto.MotionNotifyEvent (xproto.overwrite m1 m3))
         MotionNotify (xproto.Event m1) /\
     dispatches (callsOf (processEventQueue 0%N true sampleThree)) =
       [(MotionNotify, xproto.Event m1,
         xproto.MotionNotifyEvent (xproto.overwrite m1 m3))]).
Proof.
  apply (drain_in_order_collapsing_motion 0%N true sampleThree).
  - reflexivity.
  - reflexivity.
  - repeat constructor.
Defined.

(** C2, as stated, fails in two ways.  When the third of three motion
    notifies of a window has root window 0, the one dispatch carries the
    time and position of the first.  And when a motion notify of a
    window arrives from the connection after that window's motion
    notify was dispatched (here, during the compression for another
    window), the window is dispatched a motion notify twice in one
    drain. *)
Lemma drain_does_not_always_collapse_to_last :
  ~ threeMotionsYieldLast 0%N
      (sampleXUtil []
         [sampleMotion 7 1 10 1 1; sampleMotion 7 1 11 2 2;
          sampleMotion 7 0 12 3 3] 0%N false)
      (sampleInput 7 1 10 1 1) (sampleInput 7 1 11 2 2)
      (sampleInput 7 0 12 3 3) /\
  ~ oneMotionDispatchPerWindow 0%N
      (sampleXUtil [mkEntry None None; sampleMotion 7 1 12 3 3]
         [sampleMotion 7 1 10 1 1; sampleMotion 8 1 11 2 2] 0%N false).
Proof.
  split.
  - intros H. specialize (H eq_refl eq_refl eq_refl).
    vm_compute in H. discriminate H.
  - intros H. specialize (H _ eq_refl). vm_compute in H.
    inversion H as [|? ? Hnot _]. apply Hnot. right. left. reflexivity.
Qed.

(** * Beyond the claims *)

(** ** [Read] with [block = true] *)

(** The blocking fetch skips answers that are empty and stops at the first
    entry; if it finds none the script is used up. *)
Lemma waitFor_split (c : list EventOrError) :
  exists skipped,
    arrivals skipped = [] /\
    (isNil (fst (waitFor c)) = false ->
     c = skipped ++ fst (waitFor c) :: snd (waitFor c)) /\
    (isNil (fst (waitFor c)) = true ->
     c = skipped /\ snd (waitFor c) = []).
Proof.
  induction c as [|r rest (skipped & Hs & Hreal & Hnone)]; simpl.
  - exists []. repeat split; auto; discriminate.
  - destruct (isNil r) eqn:Hr.
    + exists (r :: skipped). unfold arrivals in *. simpl. rewrite Hr. simpl.
      split; [exact Hs|]. split.
      * intros H. rewrite (Hreal H) at 1. reflexivity.
      * intros H. destruct (Hnone H) as [-> ->]. split; reflexivity.
    + exists []. simpl. rewrite Hr. repeat split; auto; discriminate.
Qed.

Lemma Read_true (xu : XUtil) :
  Read true xu =
  if isNil (fst (waitFor (Conn xu)))
  then Crashed FatalNoEntry (setConn (snd (waitFor (Conn xu))) xu) []
  else Ok tt
         (setConn (unpolled (snd (waitFor (Conn xu))))
            (setEvqueue
               (Evqueue xu
                  ++ fst (waitFor (Conn xu))
                       :: polled (snd (waitFor (Conn xu))))
               xu)) [].
Proof.
  unfold Read, bind, WaitForEvent, crash, Enqueue.
  destruct (waitFor (Conn xu)) as [r rest]. cbn.
  destruct (isNil r) eqn:Hr; cbn; [reflexivity|].
  rewrite pollLoop_eq, entry_eta. cbn. rewrite <- app_assoc.
  destruct xu; reflexivity.
Qed.

Lemma arrivals_app (c1 c2 : list EventOrError) :
  arrivals (c1 ++ c2) = arrivals c1 ++ arrivals c2.
Proof. apply filter_app. Qed.

Lemma arrivals_hold (c : list EventOrError) :
  Forall holdsSomething (arrivals c).
Proof.
  apply Forall_forall. intros x Hx. apply filter_In in Hx.
  destruct Hx as [_ Hx]. unfold holdsSomething.
  destruct (isNil x); [discriminate|reflexivity].
Qed.

Lemma waitFor_skips (skipped later : list EventOrError)
    (first : EventOrError) :
  arrivals skipped = [] -> isNil first = false ->
  waitFor (skipped ++ first :: later) = (first, later).
Proof.
  intros Hs Hf. induction skipped as [|r skipped IH]; simpl.
  - rewrite Hf. reflexivity.
  - unfold arrivals in Hs. simpl in Hs.
    destruct (isNil r); [exact (IH Hs)|discriminate Hs].
Qed.

(** X1.  [Read], blocking, on a connection whose first entry [first]
    comes after some moments at which nothing is available, returns with
    [first] appended to the queue, followed by the entries that come
    after it up to the next moment at which nothing is available; those
    answers, and the empty one that ends them, are taken off the
    connection.  The queue is not empty afterwards, and what was in it
    is still at its head. *)
Theorem Read_blocking_fills_queue (xu : XUtil)
    (skipped later : list EventOrError) (first : EventOrError) :
  Conn xu = skipped ++ first :: later ->
  arrivals skipped = [] -> isNil first = false ->
  Read true xu =
    Ok tt
      (setConn (unpolled later)
         (setEvqueue (Evqueue xu ++ first :: polled later) xu)) [] /\
  Evqueue
    (setConn (unpolled later)
       (setEvqueue (Evqueue xu ++ first :: polled later) xu)) <> [].
Proof.
  intros Hc Hs Hf. split.
  - rewrite Read_true, Hc, (waitFor_skips skipped later first Hs Hf).
    cbn [fst snd]. rewrite Hf. reflexivity.
  - cbn [Evqueue setConn setEvqueue]. intros H.
    apply app_eq_nil in H. destruct H as [_ H]. discriminate H.
Qed.

Lemma Read_blocking_fills_queue_witness :
  Read true
    (sampleXUtil
       [mkEntry None None; sampleMotion 7 1 10 1 1; mkEntry None (Some 3%N);
        mkEntry None None; sampleMotion 7 1 11 2 2]
       [sampleMotion 8 1 9 0 0] 0%N false)
  = Ok tt
      (setConn (unpolled [mkEntry None (Some 3%N); mkEntry None None;
                          sampleMotion 7 1 11 2 2])
         (setEvqueue
            ([sampleMotion 8 1 9 0 0]
               ++ sampleMotion 7 1 10 1 1
                    :: polled [mkEntry None (Some 3%N); mkEntry None None;
                               sampleMotion 7 1 11 2 2])
            (sampleXUtil
               [mkEntry None None; sampleMotion 7 1 10 1 1;
                mkEntry None (Some 3%N); mkEntry None None;
                sampleMotion 7 1 11 2 2]
               [sampleMotion 8 1 9 0 0] 0%N false))) [] /\
  Evqueue
    (setConn (unpolled [mkEntry None (Some 3%N); mkEntry None None;
                        sampleMotion 7 1 11 2 2])
       (setEvqueue
          ([sampleMotion 8 1 9 0 0]
             ++ sampleMotion 7 1 10 1 1
                  :: polled [mkEntry None (Some 3%N); mkEntry None None;
                             sampleMotion 7 1 11 2 2])
          (sampleXUtil
             [mkEntry None None; sampleMotion 7 1 10 1 1;
              mkEntry None (Some 3%N); mkEntry None None;
              sampleMotion 7 1 11 2 2]
             [sampleMotion 8 1 9 0 0] 0%N false))) <> [].
Proof.
  apply (Read_blocking_fills_queue
           (sampleXUtil
              [mkEntry None None; sampleMotion 7 1 10 1 1;
               mkEntry None (Some 3%N); mkEntry None None;
               sampleMotion 7 1 11 2 2]
              [sampleMotion 8 1 9 0 0] 0%N false)
           [mkEntry None None]
           [mkEntry None (Some 3%N); mkEntry None None;
            sampleMotion 7 1 11 2 2]
           (sampleMotion 7 1 10 1 1));
    reflexivity.
Defined.

Lemma Read_true_closed (xu : XUtil) :
  arrivals (Conn xu) = [] ->
  Read true xu = Crashed FatalNoEntry (setConn [] xu) [].
Proof.
  intros Hnone. rewrite Read_true.
  destruct (waitFor_split (Conn xu)) as (skipped & Hs & Hreal & Hno).
  destruct (isNil (fst (waitFor (Conn xu)))) eqn:Hw.
  - destruct (Hno eq_refl) as [_ ->]. reflexivity.
  - exfalso. rewrite (Hreal eq_refl), arrivals_app, Hs in Hnone.
    unfold arrivals in Hnone. simpl in Hnone. rewrite Hw in Hnone.
    discriminate Hnone.
Qed.

Lemma Read_true_cases (xu : XUtil) :
  (arrivals (Conn xu) = [] /\
   Read true xu = Crashed FatalNoEntry (setConn [] xu) []) \/
  (exists xu1, Read true xu = Ok tt xu1 []).
Proof.
  destruct (arrivals (Conn xu)) eqn:Harr.
  - left. split; [reflexivity|]. apply Read_true_closed. exact Harr.
  - right. rewrite Read_true.
    destruct (waitFor_split (Conn xu)) as (skipped & Hs & Hreal & Hno).
    destruct (isNil (fst (waitFor (Conn xu)))) eqn:Hw.
    + exfalso. destruct (Hno eq_refl) as [Hc _].
      rewrite Hc, Hs in Harr. discriminate Harr.
    + eexists. reflexivity.
Qed.

(** X2.  [Read], blocking, on a connection that has no entry left to
    deliver (the wait ends with neither event nor error) stops at the
    fatal log call, with the queue as it was. *)
Theorem Read_blocking_closed_connection (xu : XUtil) :
  arrivals (Conn xu) = [] ->
  Read true xu = Crashed FatalNoEntry (setConn [] xu) [] /\
  Evqueue (setConn [] xu) = Evqueue xu.
Proof.
  intros Hnone. split; [apply Read_true_closed; exact Hnone|reflexivity].
Qed.

Lemma Read_blocking_closed_connection_witness :
  Read true
    (sampleXUtil [mkEntry None None; mkEntry None None]
       [sampleMotion 8 1 9 0 0] 0%N false)
  = Crashed FatalNoEntry
      (setConn []
         (sampleXUtil [mkEntry None None; mkEntry None None]
            [sampleMotion 8 1 9 0 0] 0%N false)) [] /\
  Evqueue
    (setConn []
       (sampleXUtil [mkEntry None None; mkEntry None None]
          [sampleMotion 8 1 9 0 0] 0%N false))
  = [sampleMotion 8 1 9 0 0].
Proof.
  apply (Read_blocking_closed_connection
           (sampleXUtil [mkEntry None None; mkEntry None None]
              [sampleMotion 8 1 9 0 0] 0%N false)).
  reflexivity.
Defined.

(** What [Read] does to the queue and the connection when it returns. *)
Lemma Read_effect (block : bool) (xu xu' : XUtil) (tr : Trace) :
  Read block xu = Ok tt xu' tr ->
  exists consumed,
    Conn xu = consumed ++ Conn xu' /\
    xu' = setConn (Conn xu') (setEvqueue (Evqueue xu ++ arrivals consumed) xu) /\
    tr = [] /\
    (block = true -> arrivals consumed <> []).
Proof.
  destruct block.
  - rewrite Read_true.
    destruct (waitFor_split (Conn xu)) as (skipped & Hs & Hreal & _).
    destruct (isNil (fst (waitFor (Conn xu)))) eqn:Hw; [discriminate|].
    intros H. injection H as <- <-.
    destruct (polled_consumed (snd (waitFor (Conn xu)))) as (c1 & Hc & Hp).
    exists (skipped ++ fst (waitFor (Conn xu)) :: c1).
    assert (Harr : arrivals (skipped ++ fst (waitFor (Conn xu)) :: c1)
                   = fst (waitFor (Conn xu))
                       :: polled (snd (waitFor (Conn xu)))).
    { rewrite arrivals_app, Hs. unfold arrivals. simpl. rewrite Hw. simpl.
      rewrite Hp. reflexivity. }
    rewrite Harr. cbn [Conn setConn setEvqueue].
    split; [|split; [|split]].
    + rewrite (Hreal eq_refl) at 1. rewrite Hc at 1.
      rewrite <- app_assoc. reflexivity.
    + destruct xu; reflexivity.
    + reflexivity.
    + discriminate.
  - rewrite Read_false. intros H. injection H as <- <-.
    destruct (polled_consumed (Conn xu)) as (c1 & Hc & Hp).
    exists c1. unfold arrivals. rewrite Hp. cbn [Conn setConn setEvqueue].
    split; [exact Hc|]. split; [destruct xu; reflexivity|].
    split; [reflexivity|discriminate].
Qed.

(** X3.  Whenever [Read] returns, blocking or not, it has only appended
    to the queue: what was queued is still there, in order, at the head;
    what was added is, in order, the entries met in the part of the
    connection gone through; no added entry is empty (neither event nor
    error); and a blocking [Read] adds at least one. *)
Theorem Read_only_appends_entries (block : bool) (xu xu' : XUtil)
    (tr : Trace) :
  Read block xu = Ok tt xu' tr ->
  exists consumed,
    Conn xu = consumed ++ Conn xu' /\
    Evqueue xu' = Evqueue xu ++ arrivals consumed /\
    Forall holdsSomething (arrivals consumed) /\
    (block = true -> length (Evqueue xu) < length (Evqueue xu')) /\
    Quit xu' = Quit xu /\ KeyRedirect xu' = KeyRedirect xu /\
    LastTime xu' = LastTime xu /\ Callbacks xu' = Callbacks xu.
Proof.
  intros H. destruct (Read_effect block xu xu' tr H)
    as (consumed & Hc & Hxu & _ & Hb).
  exists consumed. split; [exact Hc|].
  split; [rewrite Hxu; reflexivity|].
  split; [apply arrivals_hold|].
  split.
  - intros Hblock. rewrite Hxu. cbn. rewrite length_app.
    specialize (Hb Hblock). destruct (arrivals consumed); [congruence|].
    simpl. lia.
  - rewrite Hxu. repeat split.
Qed.

Lemma Read_only_appends_entries_witness :
  exists consumed,
    [mkEntry None None; sampleMotion 7 1 10 1 1; mkEntry None (Some 3%N);
     mkEntry None None; sampleMotion 7 1 11 2 2]
    = consumed ++ [sampleMotion 7 1 11 2 2] /\
    [sampleMotion 8 1 9 0 0; sampleMotion 7 1 10 1 1;
     mkEntry None (Some 3%N)]
    = [sampleMotion 8 1 9 0 0] ++ arrivals consumed /\
    Forall holdsSomething (arrivals consumed) /\
    (true = true -> 1 < 3) /\
    false = false /\ 0%N = 0%N /\ 0%N = 0%N /\
    sampleCallbacks = sampleCallbacks.
Proof.
  apply (Read_only_appends_entries true
           (sampleXUtil
              [mkEntry None None; sampleMotion 7 1 10 1 1;
               mkEntry None (Some 3%N); mkEntry None None;
               sampleMotion 7 1 11 2 2]
              [sampleMotion 8 1 9 0 0] 0%N false)
           (sampleXUtil [sampleMotion 7 1 11 2 2]
              [sampleMotion 8 1 9 0 0; sampleMotion 7 1 10 1 1;
               mkEntry None (Some 3%N)] 0%N false)
           []).
  reflexivity.
Defined.

(** ** The scan of the queue (lines 173-185) *)

(** X4.  The scan gives the position of the first entry of the queue
    that is a motion notify of the window and carries no error: the
    position is inside the queue (so the removal at that position is
    in bounds), the entry there is the one returned, and no entry before
    it qualifies.  It gives nothing exactly when no entry qualifies. *)
Theorem scan_finds_first_match (w : xproto.Window)
    (q : list EventOrError) :
  match scan w q 0 with
  | Some (i, mn) =>
      i < length q /\
      nth_error q i = Some (motionEntry mn) /\
      xproto.Event mn = w /\
      forall j ee,
        j < i -> nth_error q j = Some ee -> isMotionFor w ee = false
  | None => forall ee, In ee q -> isMotionFor w ee = false
  end.
Proof.
  destruct (scan w q 0) as [[i mn]|] eqn:Hs.
  - apply scan_Some in Hs. destruct Hs as (pre & post & -> & -> & Hpre & Hw).
    simpl. split; [rewrite length_app; simpl; lia|].
    split; [apply nth_error_middle|]. split; [exact Hw|].
    intros j ee Hj Hn. rewrite nth_error_app1 in Hn by exact Hj.
    apply nth_error_In in Hn.
    destruct (isMotionFor w ee) eqn:Hm; [|reflexivity].
    assert (Hin : In ee (filter (isMotionFor w) pre))
      by (apply filter_In; split; assumption).
    rewrite Hpre in Hin. destruct Hin.
  - apply scan_None in Hs. intros ee Hin.
    destruct (isMotionFor w ee) eqn:Hm; [|reflexivity].
    assert (Hin' : In ee (filter (isMotionFor w) q))
      by (apply filter_In; split; assumption).
    rewrite Hs in Hin'. destruct Hin'.
Qed.

(** ** The compression loop on its own (lines 168-189) *)

Lemma coalesce_syncs (f : nat) :
  forall w laste xu r xu' tr,
    coalesce f w laste xu = Ok r xu' tr ->
    length (filter isSync tr) = S (length (replacements tr)).
Proof.
  induction f as [|f IH]; intros w laste xu r xu' tr H; [discriminate|].
  rewrite coalesce_step in H. cbv zeta in H.
  cbn [Evqueue setConn setEvqueue] in H.
  destruct (scan w (Evqueue xu ++ polled (Conn xu)) 0) as [[i mn]|] eqn:Hs.
  - apply scan_Some in Hs. destruct Hs as (pre & post & Hq & -> & _ & _).
    simpl in H. rewrite Hq, nth_error_middle in H.
    destruct (coalesce f w mn _) as [r1 xu1 tr1| |] eqn:Hc;
      try discriminate.
    cbn in H. injection H as <- <- <-.
    cbn. rewrite (IH _ _ _ _ _ _ Hc). reflexivity.
  - injection H as <- <- <-. reflexivity.
Qed.

Lemma filter_out_then_in {A} (p : A -> bool) (l : list A) :
  filter p (filter (fun x => negb (p x)) l) = [].
Proof.
  induction l as [|x l IH]; simpl; [reflexivity|].
  destruct (p x) eqn:Hp; simpl; rewrite ?Hp; exact IH.
Qed.

(** X5.  The compression loop always comes to an end.  When it does, no
    motion notify of the window is left in the queue; it has made one
    round trip to the server more than it has taken entries out; and if
    it took none out, [laste] is as it was on entry. *)
Theorem compression_leaves_no_match (f : nat) (w : xproto.Window)
    (laste : xproto.InputEvent) (xu : XUtil) :
  pendingWork xu < f ->
  exists r xu' tr,
    coalesce f w laste xu = Ok r xu' tr /\
    (forall ee, In ee (Evqueue xu') -> isMotionFor w ee = false) /\
    length (filter isSync tr) = S (length (replacements tr)) /\
    (replacements tr = [] -> r = laste).
Proof.
  intros Hf.
  destruct (coalesce_spec f w laste xu Hf)
    as (consumed & rest & tr & Hc & Hco & Hrep & _).
  do 3 eexists. split; [exact Hco|]. split; [|split].
  - cbn [Evqueue setConn setEvqueue]. intros ee Hin.
    destruct (isMotionFor w ee) eqn:Hm; [|reflexivity].
    assert (Hin' : In ee (filter (isMotionFor w)
                            (filter (notMotionFor w)
                               (Evqueue xu
                                  ++ filter (fun r => negb (isNil r))
                                       consumed))))
      by (apply filter_In; split; assumption).
    unfold notMotionFor in Hin'. rewrite filter_out_then_in in Hin'.
    destruct Hin'.
  - exact (coalesce_syncs f _ _ _ _ _ _ Hco).
  - intros Hnone. rewrite <- Hrep, Hnone. reflexivity.
Qed.

Lemma compression_leaves_no_match_witness :
  exists r xu' tr,
    coalesce 7 7%N xproto.zeroInput sampleBurst = Ok r xu' tr /\
    (forall ee, In ee (Evqueue xu') -> isMotionFor 7%N ee = false) /\
    length (filter isSync tr) = S (length (replacements tr)) /\
    (replacements tr = [] -> r = xproto.zeroInput).
Proof.
  apply (compression_leaves_no_match 7 7%N xproto.zeroInput sampleBurst).
  vm_compute. lia.
Defined.

(** ** What the drain does to the queue *)

Lemma Subseq_refl {A} (l : list A) : Subseq l l.
Proof. induction l; [constructor|apply Subseq_keep; assumption]. Qed.

Lemma Subseq_trans {A} (l1 l2 l3 : list A) :
  Subseq l1 l2 -> Subseq l2 l3 -> Subseq l1 l3.
Proof.
  intros H12 H23. revert l1 H12.
  induction H23 as [|x l2 l3 _ IH|x l2 l3 _ IH]; intros l1 H12.
  - exact H12.
  - constructor. apply IH. exact H12.
  - inversion H12; subst.
    + apply Subseq_skip. apply IH. assumption.
    + apply Subseq_keep. apply IH. assumption.
Qed.

Lemma Subseq_filter {A} (p : A -> bool) (l : list A) :
  Subseq (filter p l) l.
Proof.
  induction l as [|x l IH]; simpl; [constructor|].
  destruct (p x); [apply Subseq_keep|apply Subseq_skip]; exact IH.
Qed.

Lemma Subseq_app {A} (l1 l1' l2 l2' : list A) :
  Subseq l1 l1' -> Subseq l2 l2' -> Subseq (l1 ++ l2) (l1' ++ l2').
Proof.
  intros H1 H2.
  induction H1; simpl;
    [assumption|apply Subseq_skip|apply Subseq_keep]; assumption.
Qed.

Lemma Permutation_filter_split {A} (p : A -> bool) (l : list A) :
  Permutation (filter p l ++ filter (fun x => negb (p x)) l) l.
Proof.
  induction l as [|x l IH]; simpl; [constructor|].
  destruct (p x); simpl.
  - constructor. exact IH.
  - apply Permutation_sym, Permutation_cons_app, Permutation_sym. exact IH.
Qed.

Lemma filter_all {A} (f : A -> bool) (l : list A) :
  (forall x, f x = true) -> filter f l = l.
Proof.
  intros H. induction l as [|x l IH]; simpl; [reflexivity|].
  rewrite H, IH. reflexivity.
Qed.

Lemma filter_none {A} (f : A -> bool) (l : list A) :
  (forall x, f x = false) -> filter f l = [].
Proof.
  intros H. induction l as [|x l IH]; simpl; [reflexivity|].
  rewrite H. exact IH.
Qed.

Lemma quiet_removed (tr : Trace) :
  forallb isQuiet tr = true ->
  dequeued tr = [] /\ removed tr = replacements tr.
Proof.
  induction tr as [|o tr IH]; simpl; [split; reflexivity|].
  intros H. apply andb_true_iff in H. destruct H as [Ho Htr].
  destruct (IH Htr) as [H1 H2].
  destruct o; try discriminate; simpl; split; congruence.
Qed.

Lemma removed_app (t1 t2 : Trace) :
  removed (t1 ++ t2) = removed t1 ++ removed t2.
Proof.
  induction t1 as [|o t1 IH]; simpl; [reflexivity|].
  destruct o; simpl; rewrite IH; reflexivity.
Qed.

Lemma dequeued_app (t1 t2 : Trace) :
  dequeued (t1 ++ t2) = dequeued t1 ++ dequeued t2.
Proof.
  induction t1 as [|o t1 IH]; simpl; [reflexivity|].
  destruct o; simpl; rewrite IH; reflexivity.
Qed.

Lemma removed_iteration (ping : bool) (ee : EventOrError) (handling : Trace) :
  removed (iteration ping ee handling) = ee :: removed handling.
Proof. destruct ping; reflexivity. Qed.

Lemma dequeued_iteration (ping : bool) (ee : EventOrError)
    (handling : Trace) :
  dequeued (iteration ping ee handling) = ee :: dequeued handling.
Proof. destruct ping; reflexivity. Qed.

Section Effects.

Variable NoWindow : xproto.Window.

(** What handling one event does to the queue and the connection: some
    answers of the connection are gone through, their entries queued,
    and the entries selected by [p] taken out (none, unless the event is
    a motion notify). *)
Lemma dispatch_effect (f : nat) (ev : xproto.XEvent) (xu : XUtil) :
  pendingWork xu < f ->
  exists consumed p xu1 tr1,
    dispatch NoWindow f ev xu = Ok tt xu1 tr1 /\
    Conn xu = consumed ++ Conn xu1 /\
    Evqueue xu1 =
      filter (fun r => negb (p r)) (Evqueue xu ++ arrivals consumed) /\
    removed tr1 = filter p (Evqueue xu ++ arrivals consumed) /\
    dequeued tr1 = [] /\
    Quit xu1 = Quit xu /\
    KeyRedirect xu1 = KeyRedirect xu /\
    Callbacks xu1 = Callbacks xu.
Proof.
  intros Hf. destruct (isMotionEv ev) eqn:Hm.
  - destruct ev; try discriminate.
    destruct (dispatch_motion NoWindow f e xu Hf)
      as (consumed & rest & tr & Hc & Hrep & Hobs & Hd).
    cbv zeta in Hd.
    exists consumed, (isMotionFor (xproto.Event e)).
    do 2 eexists. split; [exact Hd|].
    pose proof (coalesceObs_quiet tr Hobs) as Hq.
    destruct (quiet_removed tr Hq) as [Hdq Hrm].
    destruct (quiet_removed _ (callbackObs_quiet xu
                (xproto.MotionNotifyEvent
                   (if negb (xproto.Root
                               (lastMotion (replacements tr)
                                  xproto.zeroInput) =? 0)%N
                    then xproto.overwrite e
                           (lastMotion (replacements tr) xproto.zeroInput)
                    else e))
                MotionNotify (xproto.Event e))) as [Hdq' Hrm'].
    rewrite replacements_callbackObs in Hrm'.
    cbn [Conn Evqueue Quit KeyRedirect Callbacks setLastTime setConn
         setEvqueue].
    rewrite removed_app, dequeued_app, Hdq, Hdq', Hrm, Hrm', Hrep, app_nil_r.
    repeat split; auto.
  - destruct (dispatch_other NoWindow f ev xu Hm) as (t & Hd & Hq & Hrep).
    destruct (quiet_removed _ Hq) as [Hdq Hrm].
    exists [], (fun _ => false). do 2 eexists. split; [exact Hd|].
    cbn [Conn Evqueue Quit KeyRedirect Callbacks setLastTime app arrivals
         filter].
    rewrite app_nil_r, Hrm, Hrep, Hdq.
    rewrite filter_all by reflexivity. rewrite filter_none by reflexivity.
    repeat split; auto.
Qed.

(** What a whole drain does, by induction on the iterations. *)
Lemma drain_effect (ping : bool) (f : nat) :
  forall xu,
    pendingWork xu < f ->
    exists consumed xu' tr,
      (processEventQueue_fuel NoWindow f ping xu = Ok tt xu' tr \/
       processEventQueue_fuel NoWindow f ping xu
         = Crashed FatalNilEvent xu' tr) /\
      Conn xu = consumed ++ Conn xu' /\
      Quit xu' = Quit xu /\
      KeyRedirect xu' = KeyRedirect xu /\
      Callbacks xu' = Callbacks xu /\
      Permutation (removed tr ++ Evqueue xu')
        (Evqueue xu ++ arrivals consumed) /\
      Subseq (dequeued tr ++ Evqueue xu') (Evqueue xu ++ arrivals consumed) /\
      (processEventQueue_fuel NoWindow f ping xu = Ok tt xu' tr ->
       Quit xu = false -> Evqueue xu' = []) /\
      (Forall holdsSomething (Evqueue xu) ->
       processEventQueue_fuel NoWindow f ping xu = Ok tt xu' tr).
Proof.
  induction f as [|f IH]; intros xu Hf; [lia|].
  destruct (Evqueue xu) as [|ee rest] eqn:Hq.
  { exists [], xu, []. rewrite (process_stop NoWindow f ping xu (or_introl Hq)).
    rewrite Hq. cbn. repeat split; auto. constructor. }
  destruct (Quit xu) eqn:Hquit.
  { exists [], xu, [].
    rewrite (process_stop NoWindow f ping xu (or_intror Hquit)).
    rewrite Hq, Hquit. cbn. rewrite app_nil_r.
    repeat split; auto using Subseq_refl; discriminate. }
  assert (Hf' : pendingWork (setEvqueue rest xu) < f).
  { rewrite (pendingWork_cons xu ee rest Hq) in Hf. lia. }
  destruct (Err ee) as [err|] eqn:He.
  { destruct (IH (setEvqueue rest xu) Hf')
      as (consumed & xu' & tr & Hres & Hc & Hqt & Hk & Hcb & Hperm & Hsub
          & Hempty & Hok).
    cbn [Conn Evqueue Quit KeyRedirect Callbacks setEvqueue] in *.
    exists consumed, xu', (iteration ping ee [OErrorHandler err] ++ tr).
    rewrite (process_error NoWindow f ping xu ee rest err Hq Hquit He).
    change (pingObs ping ++ [ODequeue ee; OErrorHandler err])
      with (iteration ping ee [OErrorHandler err]).
    rewrite removed_app, dequeued_app, removed_iteration, dequeued_iteration.
    cbn [removed dequeued app].
    split; [destruct Hres as [-> | ->]; [left|right]; reflexivity|].
    repeat (split; [first [assumption | congruence]|]).
    split; [constructor; exact Hperm|].
    split; [apply Subseq_keep; exact Hsub|].
    split.
    - intros Hr _. apply Hempty; [|exact Hquit].
      destruct Hres as [H|H]; [exact H|]. rewrite H in Hr. discriminate Hr.
    - intros Hall. inversion Hall; subst. rewrite (Hok H2). reflexivity. }
  destruct (Event ee) as [ev|] eqn:Hev.
  2:{ exists [], (setEvqueue rest xu), (iteration ping ee []).
      rewrite (process_nil NoWindow f ping xu ee rest Hq Hquit He Hev).
      change (pingObs ping ++ [ODequeue ee]) with (iteration ping ee []).
      rewrite removed_iteration, dequeued_iteration.
      cbn. rewrite app_nil_r.
      split; [right; reflexivity|].
      repeat (split; [first [reflexivity | assumption
                            | apply Permutation_refl | apply Subseq_refl]|]).
      split; [intros Hr; discriminate Hr|].
      intros Hall. inversion Hall as [|? ? Hee _]; subst.
      unfold holdsSomething, isNil in Hee. rewrite He, Hev in Hee.
      discriminate Hee. }
  destruct (dispatch_effect f ev (setEvqueue rest xu) Hf')
    as (c1 & p & xu1 & tr1 & Hd & Hc1 & Hq1 & Hrm1 & Hdq1 & Hqt1 & Hk1 & Hcb1).
  cbn [Conn Evqueue Quit KeyRedirect Callbacks setEvqueue] in *.
  assert (Hf1 : pendingWork xu1 < f).
  { unfold pendingWork in *. cbn in Hf'. rewrite Hq1, Hc1 in *.
    pose proof (filter_length_le (fun r => negb (p r)) (rest ++ arrivals c1)).
    pose proof (filter_length_le (fun r => negb (isNil r)) c1).
    unfold arrivals in *. rewrite !length_app in *. lia. }
  destruct (IH xu1 Hf1)
    as (c2 & xu' & tr & Hres & Hc2 & Hqt & Hk & Hcb & Hperm & Hsub
        & Hempty & Hok).
  exists (c1 ++ c2), xu', (iteration ping ee tr1 ++ tr).
  rewrite (process_dispatch NoWindow f ping xu ee rest ev xu1 tr1
             Hq Hquit He Hev Hd).
  rewrite removed_app, dequeued_app, removed_iteration, dequeued_iteration.
  rewrite Hdq1, Hrm1, arrivals_app.
  cbn [app].
  split; [destruct Hres as [-> | ->]; [left|right]; reflexivity|].
  split; [rewrite Hc1, Hc2, app_assoc; reflexivity|].
  repeat (split; [congruence|]).
  split.
  { constructor. rewrite <- app_assoc, Hperm, Hq1.
    rewrite app_assoc, (app_assoc rest). apply Permutation_app_tail.
    apply Permutation_filter_split. }
  split.
  { apply Subseq_keep. eapply Subseq_trans; [exact Hsub|].
    rewrite Hq1, (app_assoc rest).
    apply Subseq_app; [apply Subseq_filter|apply Subseq_refl]. }
  split.
  - intros Hr _. apply Hempty; [|congruence].
    destruct Hres as [H|H]; [exact H|]. rewrite H in Hr. discriminate Hr.
  - intros Hall. inversion Hall as [|? ? _ Hrest]; subst.
    rewrite Hok; [reflexivity|].
    rewrite Hq1. apply Forall_holds_filter.
    apply Forall_app. split; [exact Hrest|apply arrivals_hold].
Qed.

End Effects.

(** X6.  If every entry of the queue holds an event or an error, as
    every entry queued by [Read] does, the drain returns: it never
    reaches the fatal log call for an entry with neither, whatever
    arrives from the connection meanwhile.  If the shutdown flag is
    unset, the queue is empty when it returns. *)
Theorem drain_returns_when_entries_hold (NoWindow : xproto.Window) (ping : bool) (xu : XUtil) :
  Forall holdsSomething (Evqueue xu) ->
  exists xu' tr,
    processEventQueue NoWindow ping xu = Ok tt xu' tr /\
    (Quit xu = false -> Evqueue xu' = []).
Proof.
  intros Hall. unfold processEventQueue.
  destruct (drain_effect NoWindow ping (S (pendingWork xu)) xu)
    as (consumed & xu' & tr & _ & _ & _ & _ & _ & _ & _ & Hempty & Hok);
    [lia|].
  exists xu', tr. split; [exact (Hok Hall)|].
  intros Hquit. exact (Hempty (Hok Hall) Hquit).
Qed.

Lemma drain_returns_when_entries_hold_witness :
  exists xu' tr,
    processEventQueue 0%N true sampleBurst = Ok tt xu' tr /\
    (Quit sampleBurst = false -> Evqueue xu' = []).
Proof.
  apply (drain_returns_when_entries_hold 0%N true sampleBurst).
  repeat constructor.
Defined.

(** X7.  The drain always comes to an end, by returning or at the fatal
    log call for an empty entry; it never dequeues from an empty queue.
    No entry is lost or taken twice: the entries it took from the queue
    (from the head, or from the middle while compressing motion), with
    those still queued at the end, are exactly the entries queued at the
    start with those that arrived from the connection meanwhile. *)
Theorem drain_loses_no_entry (NoWindow : xproto.Window) (ping : bool) (xu : XUtil) :
  exists consumed xu' tr,
    (processEventQueue NoWindow ping xu = Ok tt xu' tr \/
     processEventQueue NoWindow ping xu = Crashed FatalNilEvent xu' tr) /\
    Conn xu = consumed ++ Conn xu' /\
    Permutation (removed tr ++ Evqueue xu')
      (Evqueue xu ++ arrivals consumed).
Proof.
  unfold processEventQueue.
  destruct (drain_effect NoWindow ping (S (pendingWork xu)) xu)
    as (consumed & xu' & tr & Hres & Hc & _ & _ & _ & Hperm & _);
    [lia|].
  exists consumed, xu', tr. auto.
Qed.

(** X8.  The drain takes entries from the head of the queue in the
    order in which they were queued or arrived: the entries dequeued
    from the head, followed by those still queued at the end, are the
    entries queued at the start and those that arrived meanwhile, some
    left out (the motion notifies compressed away), the others in the
    same order. *)
Theorem drain_dequeues_in_arrival_order (NoWindow : xproto.Window) (ping : bool) (xu : XUtil) :
  exists consumed xu' tr,
    (processEventQueue NoWindow ping xu = Ok tt xu' tr \/
     processEventQueue NoWindow ping xu = Crashed FatalNilEvent xu' tr) /\
    Conn xu = consumed ++ Conn xu' /\
    Subseq (dequeued tr ++ Evqueue xu') (Evqueue xu ++ arrivals consumed).
Proof.
  unfold processEventQueue.
  destruct (drain_effect NoWindow ping (S (pendingWork xu)) xu)
    as (consumed & xu' & tr & Hres & Hc & _ & _ & _ & _ & Hsub & _);
    [lia|].
  exists consumed, xu', tr. auto.
Qed.

(** X9.  An event of a type the switch has no case for, at the head
    of the queue of a drain with the shutdown flag unset, is logged and
    skipped: the drain shows the ping (if any), the removal and the log
    line, nothing else, and then goes on with the rest of the queue to
    the end that draining the rest on its own comes to.  No callback and
    no error handler runs for it: the calls of the drain are those for
    the rest. *)
Theorem unsupported_event_skipped (NoWindow : xproto.Window) (ping : bool)
    (xu : XUtil) (ee : EventOrError) (rest : list EventOrError) (code : N) :
  Evqueue xu = ee :: rest -> Quit xu = false -> Err ee = None ->
  Event ee = Some (xproto.OtherEvent code) ->
  showsThenGoesOn (processEventQueue NoWindow ping xu)
    (iteration ping ee [OUnsupported (xproto.OtherEvent code)])
    (processEventQueue NoWindow ping (setEvqueue rest xu)) /\
  callsOf (processEventQueue NoWindow ping xu) =
    callsOf (processEventQueue NoWindow ping (setEvqueue rest xu)).
Proof.
  intros Hq Hquit He Hev.
  assert (H : showsThenGoesOn (processEventQueue NoWindow ping xu)
                (iteration ping ee [OUnsupported (xproto.OtherEvent code)])
                (processEventQueue NoWindow ping (setEvqueue rest xu))).
  { apply (drain_head_event NoWindow ping xu ee rest
             (xproto.OtherEvent code) (setEvqueue rest xu)
             [OUnsupported (xproto.OtherEvent code)] Hq Hquit He Hev).
    reflexivity. }
  split; [exact H|].
  rewrite (showsThenGoesOn_calls _ _ _ H). destruct ping; reflexivity.
Qed.

Lemma unsupported_event_skipped_witness :
  showsThenGoesOn
    (processEventQueue 0%N true
       (sampleXUtil []
          [mkEntry (Some (xproto.OtherEvent 35%N)) None;
           sampleMotion 7 1 10 1 1] 0%N false))
    (iteration true (mkEntry (Some (xproto.OtherEvent 35%N)) None)
       [OUnsupported (xproto.OtherEvent 35%N)])
    (processEventQueue 0%N true
       (setEvqueue [sampleMotion 7 1 10 1 1]
          (sampleXUtil []
             [mkEntry (Some (xproto.OtherEvent 35%N)) None;
              sampleMotion 7 1 10 1 1] 0%N false))) /\
  callsOf
    (processEventQueue 0%N true
       (sampleXUtil []
          [mkEntry (Some (xproto.OtherEvent 35%N)) None;
           sampleMotion 7 1 10 1 1] 0%N false))
  = callsOf
      (processEventQueue 0%N true
         (setEvqueue [sampleMotion 7 1 10 1 1]
            (sampleXUtil []
               [mkEntry (Some (xproto.OtherEvent 35%N)) None;
                sampleMotion 7 1 10 1 1] 0%N false))).
Proof.
  apply (unsupported_event_skipped 0%N true
           (sampleXUtil []
              [mkEntry (Some (xproto.OtherEvent 35%N)) None;
               sampleMotion 7 1 10 1 1] 0%N false)
           (mkEntry (Some (xproto.OtherEvent 35%N)) None)
           [sampleMotion 7 1 10 1 1] 35%N);
    reflexivity.
Defined.

(** X10.  An entry with neither event nor error at the head of the
    queue stops the drain at the fatal log call, after the ping (if any)
    and the removal of that entry: nothing is invoked, and the entries
    behind it stay in the queue, unhandled. *)
Theorem empty_entry_is_fatal (NoWindow : xproto.Window) (ping : bool) (xu : XUtil)
    (ee : EventOrError) (rest : list EventOrError) :
  Evqueue xu = ee :: rest -> Quit xu = false -> isNil ee = true ->
  processEventQueue NoWindow ping xu =
    Crashed FatalNilEvent (setEvqueue rest xu) (iteration ping ee []) /\
  filter isCall (iteration ping ee []) = [] /\
  Evqueue (setEvqueue rest xu) = rest.
Proof.
  intros Hq Hquit Hnil. unfold isNil in Hnil.
  destruct (Event ee) eqn:Hev; [discriminate|].
  destruct (Err ee) eqn:He; [discriminate|].
  split; [|split; [destruct ping; reflexivity|reflexivity]].
  unfold processEventQueue. rewrite (pendingWork_cons xu ee rest Hq).
  apply process_nil; assumption.
Qed.

Lemma empty_entry_is_fatal_witness :
  processEventQueue 0%N true
    (sampleXUtil [] [mkEntry None None; sampleMotion 7 1 10 1 1] 0%N false)
  = Crashed FatalNilEvent
      (setEvqueue [sampleMotion 7 1 10 1 1]
         (sampleXUtil [] [mkEntry None None; sampleMotion 7 1 10 1 1]
            0%N false))
      (iteration true (mkEntry None None) []) /\
  filter isCall (iteration true (mkEntry None None) []) = [] /\
  Evqueue
    (setEvqueue [sampleMotion 7 1 10 1 1]
       (sampleXUtil [] [mkEntry None None; sampleMotion 7 1 10 1 1]
          0%N false))
  = [sampleMotion 7 1 10 1 1].
Proof.
  apply (empty_entry_is_fatal 0%N true
           (sampleXUtil [] [mkEntry None None; sampleMotion 7 1 10 1 1]
              0%N false)
           (mkEntry None None) [sampleMotion 7 1 10 1 1]);
    reflexivity.
Defined.

(** ** The main loop *)

Lemma prepend_nil {A} (r : Res A) : prepend [] r = r.
Proof. destruct r; reflexivity. Qed.

Lemma pingBlocks_app (t1 t2 : Trace) :
  pingBlocks t1 -> pingBlocks t2 -> pingBlocks (t1 ++ t2).
Proof.
  induction 1 as [|ee handling rest Hq Hrest IH]; intros H2; [exact H2|].
  simpl. rewrite <- app_assoc. apply pingBlocks_cons; auto.
Qed.

Lemma main_step (NoWindow : xproto.Window) (f : nat) (ping : bool)
    (xu : XUtil) :
  Quit xu = false ->
  mainEventLoop_fuel NoWindow (S f) ping xu =
    match Read true xu with
    | Ok _ xu1 t1 =>
        prepend t1
          match processEventQueue NoWindow ping xu1 with
          | Ok _ xu2 t2 =>
              prepend t2 (mainEventLoop_fuel NoWindow f ping xu2)
          | Crashed c x t => Crashed c x t
          | OutOfFuel => OutOfFuel
          end
    | Crashed c x t => Crashed c x t
    | OutOfFuel => OutOfFuel
    end.
Proof.
  intros Hquit. cbn [mainEventLoop_fuel]. unfold Quitting. rewrite Hquit.
  reflexivity.
Qed.

Lemma drain_trace_pingBlocks (NoWindow : xproto.Window) (xu : XUtil)
    (tr : Trace) :
  traceOf (processEventQueue NoWindow true xu) = Some tr -> pingBlocks tr.
Proof.
  unfold processEventQueue. intros H.
  destruct (process_pingBlocks NoWindow (S (pendingWork xu)) xu)
    as (tr0 & Ht & Hb); [lia|].
  rewrite Ht in H. injection H as <-. exact Hb.
Qed.

Lemma drain_trace_no_ping (NoWindow : xproto.Window) (xu : XUtil)
    (tr : Trace) :
  traceOf (processEventQueue NoWindow false xu) = Some tr ->
  filter isPing tr = [].
Proof.
  unfold processEventQueue. intros H.
  destruct (process_no_ping NoWindow (S (pendingWork xu)) xu)
    as (tr0 & Ht & Hb); [lia|].
  rewrite Ht in H. injection H as <-. exact Hb.
Qed.

(** The loop, started with the shutdown flag unset, runs until it stops
    at one of the two fatal log calls; what it took from the queue and
    what is left in it are what was queued and what arrived. *)
Lemma main_effect (NoWindow : xproto.Window) (ping : bool) (f : nat) :
  forall xu,
    length (Conn xu) < f -> Quit xu = false ->
    exists c xu' tr,
      mainEventLoop_fuel NoWindow f ping xu = Crashed c xu' tr /\
      (c = FatalNoEntry \/ c = FatalNilEvent) /\
      (Forall holdsSomething (Evqueue xu) -> c = FatalNoEntry) /\
      (c = FatalNoEntry ->
       Conn xu' = [] /\
       (Evqueue xu' = [] \/
        (arrivals (Conn xu) = [] /\ Evqueue xu' = Evqueue xu /\ tr = []))) /\
      (exists consumed,
         Conn xu = consumed ++ Conn xu' /\
         Permutation (removed tr ++ Evqueue xu')
           (Evqueue xu ++ arrivals consumed)) /\
      (ping = true -> pingBlocks tr) /\
      (ping = false -> filter isPing tr = []).
Proof.
  induction f as [|f IH]; intros xu Hf Hquit; [lia|].
  rewrite (main_step NoWindow f ping xu Hquit).
  destruct (Read_true_cases xu) as [[Hnone Hr]|(xu1 & Hr)]; rewrite Hr.
  - exists FatalNoEntry, (setConn [] xu), [].
    split; [reflexivity|]. split; [left; reflexivity|].
    split; [reflexivity|].
    split; [intros _; split; [reflexivity|right; auto]|].
    split; [|split; [intros _; constructor|reflexivity]].
    exists (Conn xu). cbn [Conn setConn Evqueue removed app].
    rewrite Hnone, !app_nil_r. split; [reflexivity|apply Permutation_refl].
  - destruct (Read_effect true xu xu1 [] Hr) as (c0 & Hc0 & Hx1 & _ & Harr).
    specialize (Harr eq_refl). rewrite prepend_nil.
    assert (Hq1 : Quit xu1 = false) by (rewrite Hx1; exact Hquit).
    assert (Hev1 : Evqueue xu1 = Evqueue xu ++ arrivals c0)
      by (rewrite Hx1; reflexivity).
    assert (Hlen0 : 0 < length c0).
    { destruct c0; [exfalso; apply Harr; reflexivity|simpl; lia]. }
    destruct (drain_effect NoWindow ping (S (pendingWork xu1)) xu1)
      as (c1 & xu2 & tr1 & Hres & Hc1 & Hq2 & _ & _ & Hperm & _ & Hempty & Hok);
      [lia|].
    fold (processEventQueue NoWindow ping xu1) in Hres, Hempty, Hok.
    destruct Hres as [Hres|Hres]; rewrite Hres.
    + assert (Hev2 : Evqueue xu2 = []) by (apply Hempty; auto).
      assert (Hquit2 : Quit xu2 = false) by congruence.
      assert (Hf2 : length (Conn xu2) < f).
      { rewrite Hc0, Hc1, !length_app in Hf. lia. }
      destruct (IH xu2 Hf2 Hquit2)
        as (c & xu' & tr2 & Hm & _ & Hwf & Hfin & (c2 & Hc2 & Hperm2)
            & Hping & Hnoping).
      assert (Hc : c = FatalNoEntry) by (apply Hwf; rewrite Hev2; constructor).
      subst c. destruct (Hfin eq_refl) as [Hconn' Hq'].
      assert (Hev' : Evqueue xu' = []).
      { destruct Hq' as [H|(_ & H & _)]; congruence. }
      rewrite Hm. cbn [prepend].
      exists FatalNoEntry, xu', (tr1 ++ tr2).
      split; [reflexivity|]. split; [left; reflexivity|].
      split; [reflexivity|].
      split; [intros _; split; [exact Hconn'|left; exact Hev']|].
      split; [|split].
      * exists (c0 ++ c1 ++ c2). split.
        { rewrite Hc0 at 1. rewrite Hc1 at 1. rewrite Hc2 at 1.
          rewrite <- !app_assoc. reflexivity. }
        rewrite removed_app, <- app_assoc, !arrivals_app, !app_assoc.
        rewrite <- (app_assoc (removed tr1)).
        apply Permutation_app.
        { rewrite Hev2, app_nil_r, Hev1 in Hperm. exact Hperm. }
        { rewrite Hev2 in Hperm2. exact Hperm2. }
      * intros ->. apply pingBlocks_app; [|auto].
        apply (drain_trace_pingBlocks NoWindow xu1). rewrite Hres. reflexivity.
      * intros ->. rewrite filter_app, (Hnoping eq_refl).
        rewrite (drain_trace_no_ping NoWindow xu1 tr1);
          [reflexivity|rewrite Hres; reflexivity].
    + exists FatalNilEvent, xu2, tr1.
      split; [reflexivity|]. split; [right; reflexivity|].
      split.
      { intros Hall. exfalso.
        assert (H : Forall holdsSomething (Evqueue xu1)).
        { rewrite Hev1. apply Forall_app. split; [exact Hall|].
          apply arrivals_hold. }
        rewrite (Hok H) in Hres. discriminate Hres. }
      split; [intros H; discriminate H|].
      split; [|split].
      * exists (c0 ++ c1). split.
        { rewrite Hc0 at 1. rewrite Hc1 at 1. rewrite <- app_assoc.
          reflexivity. }
        rewrite arrivals_app, app_assoc, <- Hev1. exact Hperm.
      * intros ->.
        apply (drain_trace_pingBlocks NoWindow xu1). rewrite Hres. reflexivity.
      * intros ->.
        apply (drain_trace_no_ping NoWindow xu1 tr1). rewrite Hres.
        reflexivity.
Qed.

(** X11.  [mainEventLoop], started with the shutdown flag unset and a
    queue whose entries each hold an event or an error, runs until the
    connection has nothing more to deliver and stops at the fatal log
    call of the blocking [Read], never at the one of the drain.  Every
    entry queued at the start or delivered by the connection was taken
    from the queue exactly once or is still queued; if the connection
    delivered an entry at all the queue is empty at the end, and if it
    delivered none the entries queued at the start were never handled. *)
Theorem main_loop_runs_until_connection_closes (NoWindow : xproto.Window)
    (ping : bool) (xu : XUtil) :
  Quit xu = false ->
  Forall holdsSomething (Evqueue xu) ->
  exists xu' tr,
    mainEventLoop NoWindow ping xu = Crashed FatalNoEntry xu' tr /\
    Conn xu' = [] /\
    Permutation (removed tr ++ Evqueue xu')
      (Evqueue xu ++ arrivals (Conn xu)) /\
    (arrivals (Conn xu) <> [] -> Evqueue xu' = []) /\
    (arrivals (Conn xu) = [] -> tr = [] /\ Evqueue xu' = Evqueue xu).
Proof.
  intros Hquit Hall. unfold mainEventLoop.
  destruct (main_effect NoWindow ping (S (length (Conn xu))) xu)
    as (c & xu' & tr & Hm & _ & Hwf & Hfin & (consumed & Hc & Hperm) & _);
    [lia|exact Hquit|].
  pose proof (Hwf Hall) as ->.
  destruct (Hfin eq_refl) as [Hconn' Hq'].
  exists xu', tr. split; [exact Hm|]. split; [exact Hconn'|].
  rewrite Hconn', app_nil_r in Hc. subst consumed.
  split; [exact Hperm|]. split.
  - intros Hsome. destruct Hq' as [H|(H & _)]; [exact H|contradiction].
  - intros Hnone.
    rewrite (main_step NoWindow (length (Conn xu)) ping xu Hquit) in Hm.
    rewrite (Read_true_closed xu Hnone) in Hm.
    injection Hm as <- <-. split; reflexivity.
Qed.

Lemma main_loop_runs_until_connection_closes_witness :
  exists xu' tr,
    mainEventLoop 0%N true
      (sampleXUtil
         [sampleMotion 7 1 10 1 1; mkEntry None None;
          mkEntry None (Some 3%N)]
         [sampleMotion 8 1 9 0 0] 0%N false)
    = Crashed FatalNoEntry xu' tr /\
    Conn xu' = [] /\
    Permutation (removed tr ++ Evqueue xu')
      ([sampleMotion 8 1 9 0 0]
         ++ arrivals
              [sampleMotion 7 1 10 1 1; mkEntry None None;
               mkEntry None (Some 3%N)]) /\
    (arrivals
       [sampleMotion 7 1 10 1 1; mkEntry None None; mkEntry None (Some 3%N)]
     <> [] -> Evqueue xu' = []) /\
    (arrivals
       [sampleMotion 7 1 10 1 1; mkEntry None None; mkEntry None (Some 3%N)]
     = [] -> tr = [] /\ Evqueue xu' = [sampleMotion 8 1 9 0 0]).
Proof.
  apply (main_loop_runs_until_connection_closes 0%N true
           (sampleXUtil
              [sampleMotion 7 1 10 1 1; mkEntry None None;
               mkEntry None (Some 3%N)]
              [sampleMotion 8 1 9 0 0] 0%N false)).
  - reflexivity.
  - repeat constructor.
Defined.

(** X12.  Over a whole run of the loop started by [MainPing], each
    entry taken from the head of the queue is preceded by one ping of its
    own, in every cycle of the loop: the trace is a sequence of blocks
    ping, dequeue, handling.  The loop started by [Main] never sends a
    ping. *)
Theorem MainPing_pings_and_Main_does_not (NoWindow : xproto.Window)
    (xu : XUtil) :
  (exists tr,
     traceOf (MainPing NoWindow xu) = Some tr /\
     pingBlocks tr /\
     length (filter isPing tr) = length (filter isDequeue tr)) /\
  (exists tr,
     traceOf (Main NoWindow xu) = Some tr /\ filter isPing tr = []).
Proof.
  unfold MainPing, Main, mainEventLoop.
  destruct (Quit xu) eqn:Hquit.
  - cbn [mainEventLoop_fuel]. unfold Quitting. rewrite Hquit.
    split; exists []; repeat split; constructor.
  - split.
    + destruct (main_effect NoWindow true (S (length (Conn xu))) xu)
        as (c & xu' & tr & Hm & _ & _ & _ & _ & Hping & _);
        [lia|exact Hquit|].
      exists tr. rewrite Hm. split; [reflexivity|].
      split; [exact (Hping eq_refl)|].
      apply pingBlocks_count. exact (Hping eq_refl).
    + destruct (main_effect NoWindow false (S (length (Conn xu))) xu)
        as (c & xu' & tr & Hm & _ & _ & _ & _ & _ & Hnoping);
        [lia|exact Hquit|].
      exists tr. rewrite Hm. split; [reflexivity|exact (Hnoping eq_refl)].
Qed.

Lemma all_hold_polled (c : list EventOrError) :
  Forall holdsSomething c -> polled c = c /\ unpolled c = [].
Proof.
  induction 1 as [|r rest Hr _ [IH1 IH2]]; simpl; [split; reflexivity|].
  unfold holdsSomething in Hr. rewrite Hr, IH1, IH2. split; reflexivity.
Qed.

(** X13.  Reading and draining compose.  When the connection delivers
    its remaining entries in one burst (no moment at which nothing is
    available) and then closes, the loop reads them all behind the
    entries already queued, and invokes, in order, what the entries of
    the collapsed sequence (queue, then burst) invoke when handled one by
    one: motion notifies of one window are compressed across what was
    queued and what has just been read.  The loop then stops at the
    fatal log call of the blocking [Read]. *)
Theorem main_loop_dispatches_burst_collapsed (NoWindow : xproto.Window)
    (ping : bool) (xu : XUtil) :
  Quit xu = false ->
  Forall holdsSomething (Evqueue xu) ->
  Forall holdsSomething (Conn xu) ->
  Conn xu <> [] ->
  exists xu' tr,
    mainEventLoop NoWindow ping xu = Crashed FatalNoEntry xu' tr /\
    Evqueue xu' = [] /\
    filter isCall tr =
      flat_map (aloneCalls NoWindow ping (setConn [] xu))
        (collapse (Evqueue xu ++ Conn xu)).
Proof.
  intros Hquit Hall Hburst Hne. unfold mainEventLoop.
  destruct (Conn xu) as [|first rest] eqn:Hconn; [contradiction|].
  inversion Hburst as [|? ? Hfirst Hrest]; subst.
  destruct (all_hold_polled rest Hrest) as [Hp Hu].
  set (xu1 := setConn [] (setEvqueue (Evqueue xu ++ first :: rest) xu)).
  assert (Hr : Read true xu = Ok tt xu1 []).
  { rewrite Read_true, Hconn. cbn [waitFor].
    unfold holdsSomething in Hfirst. rewrite Hfirst. cbn [fst snd].
    rewrite Hfirst, Hp, Hu. reflexivity. }
  rewrite (main_step NoWindow (length (first :: rest)) ping xu Hquit).
  rewrite Hr, prepend_nil.
  assert (Hall1 : Forall holdsSomething (Evqueue xu1)).
  { apply Forall_app. split; [exact Hall|exact Hburst]. }
  destruct (drain_calls NoWindow ping (S (pendingWork xu1)) xu1
              eq_refl Hquit Hall1)
    as (xu2 & tr & Hd & Hempty & Hcalls); [lia|].
  destruct (drain_effect NoWindow ping (S (pendingWork xu1)) xu1)
    as (c1 & xu2' & tr' & Hres & Hc1 & Hq2 & _); [lia|].
  rewrite Hd in Hres.
  assert (Hx : xu2' = xu2 /\ tr' = tr).
  { destruct Hres as [H|H]; [injection H as <- <-; auto|discriminate H]. }
  destruct Hx as [-> ->].
  assert (Hconn2 : Conn xu2 = []).
  { cbn [xu1 Conn setConn] in Hc1. symmetry in Hc1.
    apply app_eq_nil in Hc1. tauto. }
  fold (processEventQueue NoWindow ping xu1) in Hd. rewrite Hd.
  cbn [length].
  rewrite (main_step NoWindow (length rest) ping xu2)
    by (rewrite Hq2; exact Hquit).
  rewrite (Read_true_closed xu2) by (rewrite Hconn2; reflexivity).
  cbn [prepend]. exists (setConn [] xu2), (tr ++ []).
  split; [reflexivity|]. split; [exact Hempty|].
  rewrite app_nil_r, Hcalls. apply flat_map_ext. intros a.
  rewrite (aloneCalls_entryCalls NoWindow ping (setConn [] xu) a eq_refl Hquit).
  apply entryCalls_frame; reflexivity.
Qed.

Lemma main_loop_dispatches_burst_collapsed_witness :
  exists xu' tr,
    mainEventLoop 0%N false
      (sampleXUtil
         [sampleMotion 7 1 11 2 2; mkEntry None (Some 3%N);
          sampleMotion 7 1 12 3 3]
         [sampleMotion 7 1 10 1 1] 0%N false)
    = Crashed FatalNoEntry xu' tr /\
    Evqueue xu' = [] /\
    filter isCall tr =
      flat_map
        (aloneCalls 0%N false
           (setConn []
              (sampleXUtil
                 [sampleMotion 7 1 11 2 2; mkEntry None (Some 3%N);
                  sampleMotion 7 1 12 3 3]
                 [sampleMotion 7 1 10 1 1] 0%N false)))
        (collapse
           ([sampleMotion 7 1 10 1 1]
              ++ [sampleMotion 7 1 11 2 2; mkEntry None (Some 3%N);
                  sampleMotion 7 1 12 3 3])).
Proof.
  apply (main_loop_dispatches_burst_collapsed 0%N false
           (sampleXUtil
              [sampleMotion 7 1 11 2 2; mkEntry None (Some 3%N);
               sampleMotion 7 1 12 3 3]
              [sampleMotion 7 1 10 1 1] 0%N false)).
  - reflexivity.
  - repeat constructor.
  - repeat constructor.
  - discriminate.
Defined.

(** ** What only the motion case does *)

Lemma callbacks_no_sync (ev : xproto.XEvent) (l : list Callback)
    (tr : Trace) :
  filter isSync (map (fun cb => OCallback cb ev) l ++ tr) = filter isSync tr.
Proof. induction l; simpl; auto. Qed.

Lemma callbacks_no_sync_only (ev : xproto.XEvent) (l : list Callback) :
  filter isSync (map (fun cb => OCallback cb ev) l) = [].
Proof. induction l; simpl; auto. Qed.

Lemma dispatchObs_no_sync (NoWindow : xproto.Window) (xu : XUtil)
    (ev : xproto.XEvent) :
  isMotionEv ev = false -> filter isSync (dispatchObs NoWindow xu ev) = [].
Proof.
  destruct xu as [c q qt kr lt cbs].
  destruct ev; try discriminate; intros _;
    unfold dispatchObs, alone, dispatch, bind, TimeSet, runCallbacks,
      RedirectKeyGet, emit, setLastTime; cbn;
    rewrite ?callbacks_no_sync; cbn;
    rewrite ?callbacks_no_sync, ?callbacks_no_sync_only; cbn;
    rewrite ?callbacks_no_sync_only; reflexivity.
Qed.

(** X14.  Only the motion-notify case touches the queue or the
    connection.  Handling an event of any other type returns at once,
    without syncing with the server, without reading from the
    connection and without taking an entry out of the queue: at most the
    last-seen timestamp changes. *)
Theorem only_motion_touches_queue (NoWindow : xproto.Window) (f : nat)
    (ev : xproto.XEvent) (xu : XUtil) :
  isMotionEv ev = false ->
  exists t tr,
    dispatch NoWindow f ev xu = Ok tt (setLastTime t xu) tr /\
    Conn (setLastTime t xu) = Conn xu /\
    Evqueue (setLastTime t xu) = Evqueue xu /\
    removed tr = [] /\
    filter isSync tr = [].
Proof.
  intros Hm.
  destruct (dispatch_other NoWindow f ev xu Hm) as (t & Hd & Hq & Hrep).
  exists t, (dispatchObs NoWindow xu ev).
  split; [exact Hd|]. split; [reflexivity|]. split; [reflexivity|].
  destruct (quiet_removed _ Hq) as [_ Hrm].
  split; [congruence|]. apply dispatchObs_no_sync. exact Hm.
Qed.

Lemma only_motion_touches_queue_witness :
  exists t tr,
    dispatch 0%N 0 (xproto.KeyPressEvent sampleKey) sampleBurst
    = Ok tt (setLastTime t sampleBurst) tr /\
    Conn (setLastTime t sampleBurst) = Conn sampleBurst /\
    Evqueue (setLastTime t sampleBurst) = Evqueue sampleBurst /\
    removed tr = [] /\
    filter isSync tr = [].
Proof.
  apply (only_motion_touches_queue 0%N 0 (xproto.KeyPressEvent sampleKey)
           sampleBurst).
  reflexivity.
Defined.
